(** * Event Gateway plugin: a shallow embedding of [src/index.js]

    The plugin is one class, [EGPlugin], with three hook entry points
    ([addUserDefinition], [configureEventGateway], [emitEvent]) and three
    free functions ([eventPath], [registerFunction], [createSubscription]).
    The embedding covers the configuration resolver, the client factory,
    the template augmenter, the synchronization engine and the manual
    emission command, and keeps the source's names.
    JavaScript objects that the code reads by property are finite maps from
    property names to values; a missing property is [None] (JavaScript's
    [undefined]).  Code that may throw or that writes to shared objects
    runs in a state-and-exception monad whose state also records what an
    observer sees: log lines, requests, and rejections nobody handles. *)

From Stdlib Require Import Ascii.
From stdpp Require Import base option gmap strings list fin_maps.

(** ** JavaScript strings and the few coercions the source relies on *)

(** The double-quote character, which several messages of the source embed. *)
Definition dq : string := String (Ascii.ascii_of_nat 34) EmptyString.

(** A template-literal hole: a string prints as itself, [undefined] prints
    as the nine letters of its name. *)
Definition tmpl (v : option string) : string := default "undefined" v.

(** Truthiness of a value that is a string or [undefined]: the empty string
    and [undefined] are falsy. *)
Definition truthy (v : option string) : bool :=
  match v with
  | Some (String _ _) => true
  | _ => false
  end.

(** [a || b] *)
Definition js_or (a b : option string) : option string :=
  if truthy a then a else b.

(** [a == b] on values that are strings or [undefined]. *)
Definition loose_eq (a b : option string) : bool := bool_decide (a = b).

(** [s.startsWith(c)] for a one-character prefix. *)
Definition startsWith (s : string) (c : ascii) : bool :=
  match s with
  | String d _ => bool_decide (d = c)
  | EmptyString => false
  end.

(** [c.toUpperCase()] on one byte: the letters a..z move to A..Z, every other
    byte stays.  (JavaScript's conversion also maps letters outside ASCII;
    a string here is a byte string and those bytes are left alone.) *)
Definition upper_ascii (c : ascii) : ascii :=
  let n := Ascii.nat_of_ascii c in
  if (97 <=? n)%nat && (n <=? 122)%nat then Ascii.ascii_of_nat (n - 32) else c.

Fixpoint toUpperCase (s : string) : string :=
  match s with
  | EmptyString => EmptyString
  | String c r => String (upper_ascii c) (toUpperCase r)
  end.

(** [s.split(sep)] for a one-character separator: never the empty list. *)
Fixpoint split (sep : ascii) (s : string) : list string :=
  match s with
  | EmptyString => [EmptyString]
  | String c r =>
      if bool_decide (c = sep) then EmptyString :: split sep r
      else match split sep r with
           | w :: ws => String c w :: ws
           | [] => [String c EmptyString]
           end
  end.

(** [parts.join(sep)] *)
Fixpoint join (sep : string) (parts : list string) : string :=
  match parts with
  | [] => EmptyString
  | [w] => w
  | w :: ws => w +:+ sep +:+ join sep ws
  end.

(** ** Errors *)

Inductive error : Type :=
  | Error (message : string)       (* [new Error(message)] *)
  | TypeError (expression : string) (* a property read or a method call on
                                       [undefined] or [null]; the argument
                                       names the expression that failed *)
  | Rejection (reason : string).   (* a rejection handed back by the gateway
                                       client or by the cloud provider: the
                                       promise rejects with the string
                                       [reason] *)

Global Instance error_eq_dec : EqDecision error.
Proof. solve_decision. Defined.

(** The text a template literal prints for a caught gateway error. *)
Definition err_text (e : error) : string :=
  match e with
  | Error m => "Error: " +:+ m
  | TypeError x => "TypeError: " +:+ x
  | Rejection r => r
  end.

(** [if (err)] on a caught rejection reason: an error object is truthy, a
    string reason is truthy unless it is empty. *)
Definition truthy_error (e : error) : bool :=
  match e with
  | Error _ | TypeError _ => true
  | Rejection reason => negb (bool_decide (reason = ""))
  end.

(** [if (err)] on the first component of what [to] hands back: [null] when
    the promise resolved. *)
Definition truthy_err (err : option error) : bool :=
  match err with
  | Some e => truthy_error e
  | None => false
  end.

(** The error kinds of the specification, by the message the source throws. *)
Definition MissingConfiguration : error :=
  Error "No Event Gateway configuration provided in serverless.yaml".

Definition MissingField (field : string) : error :=
  Error ("Required " +:+ dq +:+ field +:+ dq +:+
         " property is missing from Event Gateway configuration provided in serverless.yaml").

Definition StackDescribeFailed : error :=
  Error "Error during fetching information about stack.".

Definition StackNotFound : error :=
  Error "Unable to fetch CloudFormation stack information.".

Definition MissingCredentialsOutput : error :=
  Error "Event Gateway Access Key or Secret Key not found in outputs".

Definition FunctionRegistrationFailed (functionId : option string) (err : error) : error :=
  Error ("Couldn't register a function " +:+ tmpl functionId +:+ ". " +:+ err_text err +:+ ".").

Definition SubscriptionCreationFailed (functionId : option string) (err : error) : error :=
  Error ("Couldn't create subscriptions for " +:+ tmpl functionId +:+ ". " +:+ err_text err +:+ ".").

(** ** The project model the host tool hands to the plugin *)

(** One [eventgateway] section of a function's [events] list. *)
Record gwevent : Type := {
  event : option string;
  path : option string;
  method : option string;
  cors : option bool
}.

(** One entry of a function's [events] list: it carries an [eventgateway]
    section, or it is a trigger of another kind and carries none. *)
Record trigger : Type := { eventgateway : option gwevent }.

(** A declared function; [events] may be absent altogether. *)
Record func : Type := { events : option (list trigger) }.

(** [this.serverless.service.functions], in declaration order. *)
Definition functions_t : Type := list (string * func).

Global Instance gwevent_eq_dec : EqDecision gwevent.
Proof. solve_decision. Defined.

Global Instance trigger_eq_dec : EqDecision trigger.
Proof. solve_decision. Defined.

(** ** What the plugin sends to, and reads from, the gateway *)

Record provider_t : Type := {
  type : string;
  arn : string;
  region : string;
  awsAccessKeyId : option string;
  awsSecretAccessKey : option string
}.

Record fn_descriptor : Type := {
  fn_functionId : option string;
  fn_provider : provider_t
}.

Record subscribe_req : Type := {
  sr_functionId : option string;
  sr_event : option string;
  sr_path : string;
  sr_cors : option bool;
  sr_method : option string
}.

(** A registered function, as [listFunctions] returns it. *)
Record regfn : Type := { f_functionId : string }.

(** A subscription, as [listSubscriptions] returns it. *)
Record subscription : Type := {
  subscriptionId : string;
  s_functionId : string;
  s_event : string;
  s_method : option string;
  s_path : option string
}.

Global Instance provider_eq_dec : EqDecision provider_t.
Proof. solve_decision. Defined.

Global Instance fn_descriptor_eq_dec : EqDecision fn_descriptor.
Proof. solve_decision. Defined.

Global Instance subscribe_req_eq_dec : EqDecision subscribe_req.
Proof. solve_decision. Defined.

Global Instance regfn_eq_dec : EqDecision regfn.
Proof. solve_decision. Defined.

Global Instance subscription_eq_dec : EqDecision subscription.
Proof. solve_decision. Defined.

(** The calls the plugin makes on the gateway client. *)
Inductive gwcall : Type :=
  | listFunctions
  | listSubscriptions
  | registerFunction_call (fn : fn_descriptor)
  | subscribe (req : subscribe_req)
  | unsubscribe (id : string)
  | deleteFunction (id : string).

Global Instance gwcall_eq_dec : EqDecision gwcall.
Proof. solve_decision. Defined.

(** What an observer of one hook invocation sees, in program order. *)
Inductive obs : Type :=
  | Log (line : string)            (* [this.serverless.cli.consoleLog] *)
  | DescribeStacks (StackName : string)
  | Call (c : gwcall)              (* a request issued on the gateway client *)
  | Unhandled (e : error).         (* a detached callback rejected and nothing
                                      handles the rejection *)

Global Instance obs_eq_dec : EqDecision obs.
Proof. solve_decision. Defined.

(** ** The cloud provider's stack description *)

Record output : Type := {
  OutputKey : option string;
  OutputValue : option string
}.

Record stack : Type := { Outputs : list output }.

(** [this.awsProvider]: the naming helpers and the stack-description request
    belong to the host tool, so they are parameters of the model. *)
Record host : Type := {
  getStackName : string;
  getStage : string;
  getRegion : string;
  getLambdaLogicalId : string → string;
  getLambdaVersionOutputLogicalId : string → string;
  (* [request("CloudFormation", "describeStacks", {StackName}, stage, region)]:
     a rejection, or the [Stacks] array of the answer *)
  describeStacks : string → string → string → error + list stack
}.

(** The answers of the gateway behind the client.  Every request gets an
    answer that depends on the request alone. *)
Record gateway : Type := {
  gw_listFunctions : error + list regfn;
  gw_listSubscriptions : error + list subscription;
  gw_registerFunction : fn_descriptor → option error;
  gw_subscribe : subscribe_req → option error;
  gw_unsubscribe : string → option error;
  gw_deleteFunction : string → option error
}.

(** The client handle [new SDK({url, configurationUrl, space})]. *)
Record SDK : Type := {
  url : string;
  configurationUrl : string;
  space : option string
}.

(** ** The mutable store

    [getConfig] hands out the very object that the project's configuration
    tree holds, so objects live in a heap and the tree holds a reference.
    The two local variables of [configureEventGateway] that its callbacks
    reassign, [functions] and [createdSubscriptions], are cells of the store
    as well. *)

Record custom_t : Type := { custom_eventgateway : option positive }.

Record state : Type := {
  heap : gmap positive (gmap string string);
  custom : option custom_t;               (* [this.serverless.service.custom] *)
  EVENT_GATEWAY_TOKEN : option string;     (* [process.env.EVENT_GATEWAY_TOKEN] *)
  functions : option (list regfn);
  createdSubscriptions : list subscription;
  trace : list obs
}.

Definition set_heap (h : gmap positive (gmap string string)) (s : state) : state :=
  {| heap := h; custom := custom s;
     EVENT_GATEWAY_TOKEN := EVENT_GATEWAY_TOKEN s;
     functions := functions s; createdSubscriptions := createdSubscriptions s;
     trace := trace s |}.

Definition set_token (t : option string) (s : state) : state :=
  {| heap := heap s; custom := custom s; EVENT_GATEWAY_TOKEN := t;
     functions := functions s; createdSubscriptions := createdSubscriptions s;
     trace := trace s |}.

Definition set_functions (fs : option (list regfn)) (s : state) : state :=
  {| heap := heap s; custom := custom s;
     EVENT_GATEWAY_TOKEN := EVENT_GATEWAY_TOKEN s;
     functions := fs; createdSubscriptions := createdSubscriptions s;
     trace := trace s |}.

Definition set_createdSubscriptions (ss : list subscription) (s : state) : state :=
  {| heap := heap s; custom := custom s;
     EVENT_GATEWAY_TOKEN := EVENT_GATEWAY_TOKEN s;
     functions := functions s; createdSubscriptions := ss;
     trace := trace s |}.

Definition set_trace (t : list obs) (s : state) : state :=
  {| heap := heap s; custom := custom s;
     EVENT_GATEWAY_TOKEN := EVENT_GATEWAY_TOKEN s;
     functions := functions s; createdSubscriptions := createdSubscriptions s;
     trace := t |}.

(** ** A state-and-exception monad

    A throw keeps the store as it was when the exception left: what the code
    wrote before it threw stays written. *)

Inductive outcome (A : Type) : Type :=
  | Return (a : A)
  | Throw (e : error).
Arguments Return {A} a.
Arguments Throw {A} e.

Definition M (A : Type) : Type := state → outcome A * state.

Global Instance M_ret : MRet M := λ A a s, (Return a, s).

Global Instance M_bind : MBind M := λ A B f m s,
  match m s with
  | (Return a, s') => f a s'
  | (Throw e, s') => (Throw e, s')
  end.

Definition throw {A : Type} (e : error) : M A := λ s, (Throw e, s).

Definition emit (o : obs) : M unit := λ s, (Return (), set_trace (trace s ++ [o]) s).

Definition consoleLog (line : string) : M unit := emit (Log line).

(** [await to(p)]: a rejection of [p] becomes the first component of the
    pair, and nothing is thrown. *)
Definition to {A : Type} (p : M A) : M (option error * option A) := λ s,
  match p s with
  | (Return a, s') => (Return (None, Some a), s')
  | (Throw e, s') => (Return (Some e, None), s')
  end.

(** An [async] callback whose promise the caller drops: when the body throws,
    the promise rejects, nothing handles it, and the caller goes on. *)
Definition detached (body : M unit) : M unit := λ s,
  match body s with
  | (Return _, s') => (Return (), s')
  | (Throw e, s') => (Return (), set_trace (trace s' ++ [Unhandled e]) s')
  end.

Definition read {A : Type} (f : state → A) : M A := λ s, (Return (f s), s).

Definition write (f : state → state) : M unit := λ s, (Return (), f s).

(** [xs.forEach(f)] *)
Fixpoint forEach {A : Type} (f : A → M unit) (xs : list A) : M unit :=
  match xs with
  | [] => mret ()
  | x :: r => f x ;; forEach f r
  end.

(** Property reads and writes through a reference. *)
Definition get_prop (l : positive) (k : string) : M (option string) := λ s,
  (Return (heap s !! l ≫= (.!! k)), s).

Definition set_prop (l : positive) (k v : string) : M unit := λ s,
  (Return (), set_heap (<[l := <[k := v]> (default ∅ (heap s !! l))]> (heap s)) s).

(** [config.k] where [config] may be [null]. *)
Definition prop_of (config : option positive) (k : string) : M (option string) :=
  match config with
  | Some l => get_prop l k
  | None => throw (TypeError ("config." +:+ k))
  end.

Definition getenv : M (option string) := λ s, (Return (EVENT_GATEWAY_TOKEN s), s).

(** An assignment to a property of [process.env] stores the value's string
    form. *)
Definition setenv (v : option string) : M unit := λ s,
  (Return (), set_token (Some (tmpl v)) s).

(** ** Configuration Resolver: [getConfig] *)

Definition getConfig : M (option positive) := λ s,
  match custom s ≫= custom_eventgateway with
  | Some config =>
      (subdomain ← get_prop config "subdomain";
       set_prop config "eventsAPI" ("https://" +:+ tmpl subdomain +:+ ".eventgateway-dev.io");;
       set_prop config "configurationAPI" "https://config.eventgateway-dev.io/";;
       mret (Some config)) s
  | None => (Return None, s)
  end.

(** ** Gateway Client Factory: [getClient] *)

Definition getClient : M SDK :=
  config ← getConfig;
  apikey ← prop_of config "apikey";
  token ← (if truthy apikey then mret apikey else getenv);
  setenv token;;
  if negb (bool_decide (is_Some config)) then throw MissingConfiguration else
  subdomain ← prop_of config "subdomain";
  if negb (truthy subdomain) then throw (MissingField "subdomain") else
  apikey ← prop_of config "apikey";
  if negb (truthy apikey) then throw (MissingField "apikey") else
  subdomain ← prop_of config "subdomain";
  mret {| url := "http://localhost:4000";
          configurationUrl := "http://localhost:8080";
          space := subdomain |}.

(** ** Subscription Path Builder: [eventPath] *)

Definition eventPath (event : gwevent) (subdomain : option string) : string :=
  let path := default "/" (js_or (path event) (Some "/")) in
  let path := if negb (startsWith path "/") then "/" +:+ path else path in
  "/" +:+ tmpl subdomain +:+ path.

(** ** The qualifying-function filter: [filterFunctionsWithEvents] *)

(** [this.serverless.service.getAllFunctions()] *)
Definition getAllFunctions (fns : functions_t) : list string := fns.*1.

(** [this.serverless.service.getFunction(name)] *)
Fixpoint getFunction (fns : functions_t) (name : string) : option func :=
  match fns with
  | [] => None
  | (n, f) :: r => if bool_decide (n = name) then Some f else getFunction r name
  end.

(** [event => event.eventgateway], as a truth value *)
Definition has_eventgateway (ev : trigger) : bool :=
  match eventgateway ev with Some _ => true | None => false end.

Definition filterFunctionsWithEvents (fns : functions_t) : list string :=
  fold_left
    (λ functions name,
       match getFunction fns name ≫= events with
       | None => functions
       | Some events =>
           match List.find has_eventgateway events with
           | None => functions
           | Some _ => functions ++ [name]
           end
       end)
    (getAllFunctions fns) [].

(** ** Template Augmenter: [addUserDefinition] *)

(** The values of a deployment template: strings, arrays and objects.  An
    object keeps its properties in insertion order. *)
#[local] Set Warnings "-register-all".
















(** ** Synchronization Engine: [configureEventGateway] and its helpers *)

(** [agg[key] = value] on the plain object the reducer starts from, for a
    string [value]: an own property is created or overwritten, except under
    the key [__proto__], where the assignment reaches the accessor of
    [Object.prototype], which ignores a string. *)
Definition assign (key value : string) (agg : gmap string string) : gmap string string :=
  if bool_decide (key = "__proto__") then agg else <[key := value]> agg.

(** [parseOutputs(stack)].  The map holds the own properties of the object
    the reducer returns.  A read [outputs[key]] of a name the object only
    inherits from [Object.prototype] gives a function or an object, never a
    string; the engine reads two literal names that are not inherited, and
    the versioned-ARN key, on whose value it calls [split], which throws the
    same [TypeError] for such a value as for [undefined]. *)
Definition parseOutputs (stack : stack) : gmap string string :=
  fold_left
    (λ agg current,
       if truthy (OutputKey current) && truthy (OutputValue current)
       then assign (tmpl (OutputKey current)) (tmpl (OutputValue current)) agg
       else agg)
    (Outputs stack) ∅.

(** The methods of the client: the request is issued, then the promise
    settles the way the gateway answers. *)
Definition settle (answer : option error) : M unit :=
  match answer with
  | Some e => throw e
  | None => mret ()
  end.

Definition eg_listFunctions (eg : gateway) : M (list regfn) :=
  emit (Call listFunctions);;
  match gw_listFunctions eg with
  | inl e => throw e
  | inr result => mret result
  end.

Definition eg_listSubscriptions (eg : gateway) : M (list subscription) :=
  emit (Call listSubscriptions);;
  match gw_listSubscriptions eg with
  | inl e => throw e
  | inr result => mret result
  end.

Definition eg_registerFunction (eg : gateway) (fn : fn_descriptor) : M unit :=
  emit (Call (registerFunction_call fn));; settle (gw_registerFunction eg fn).

Definition eg_subscribe (eg : gateway) (req : subscribe_req) : M unit :=
  emit (Call (subscribe req));; settle (gw_subscribe eg req).

Definition eg_unsubscribe (eg : gateway) (id : string) : M unit :=
  emit (Call (unsubscribe id));; settle (gw_unsubscribe eg id).

Definition eg_deleteFunction (eg : gateway) (id : string) : M unit :=
  emit (Call (deleteFunction id));; settle (gw_deleteFunction eg id).

(** [Promise.all(ps)]: every promise of the list has been started; the
    result rejects with the first rejection among them. *)
Fixpoint Promise_all (ps : list (M unit)) : M unit :=
  match ps with
  | [] => mret ()
  | p :: r =>
      first ← to p;
      rest ← to (Promise_all r);
      match first.1, rest.1 with
      | Some e, _ => throw e
      | None, Some e => throw e
      | None, None => mret ()
      end
  end.

(** [registerFunction(eg, fn)] *)
Definition registerFunction (eg : gateway) (fn : fn_descriptor) : M unit :=
  answer ← to (eg_registerFunction eg fn);
  match answer.1 with
  | Some err =>
      if truthy_error err then throw (FunctionRegistrationFailed (fn_functionId fn) err)
      else mret ()
  | None => mret ()
  end.

(** [createSubscription(config, eg, functionId, event)]; [event] is
    [undefined] when the caller passes the [eventgateway] section of a
    trigger that has none. *)
Definition createSubscription (config : option positive) (eg : gateway)
    (functionId : option string) (ev : option gwevent) : M unit :=
  match ev with
  | None => throw (TypeError "event.event")
  | Some ev =>
      subdomain ← prop_of config "subdomain";
      let subscribeEvent :=
        {| sr_functionId := functionId;
           sr_event := event ev;
           sr_path := eventPath ev subdomain;
           sr_cors := cors ev;
           sr_method := None |} in
      subscribeEvent ←
        (if bool_decide (event ev = Some "http") then
           match method ev with
           | None => throw (TypeError "event.method.toUpperCase")
           | Some m =>
               mret {| sr_functionId := sr_functionId subscribeEvent;
                       sr_event := sr_event subscribeEvent;
                       sr_path := sr_path subscribeEvent;
                       sr_cors := sr_cors subscribeEvent;
                       sr_method := js_or (Some (toUpperCase m)) (Some "GET") |}
           end
         else mret subscribeEvent);
      answer ← to (eg_subscribe eg subscribeEvent);
      match answer.1 with
      | Some err =>
          if truthy_error err then throw (SubscriptionCreationFailed functionId err)
          else mret ()
      | None => mret ()
      end
  end.

(** [xs.find(p)] for a predicate that may throw. *)
Fixpoint findM {A : Type} (p : A → M bool) (xs : list A) : M (option A) :=
  match xs with
  | [] => mret None
  | x :: r => b ← p x; if b : bool then (mret (Some x) : M (option A)) else findM p r
  end.

(** The log lines of the engine. *)
Definition registered_line (name : string) (functionId : option string) : string :=
  "EventGateway: Function " +:+ dq +:+ name +:+ dq +:+ " registered. (ID: " +:+
  tmpl functionId +:+ ")".

Definition subscribed_line (name : string) (event : option string) : string :=
  "EventGateway: Function " +:+ dq +:+ name +:+ dq +:+ " subscribed to " +:+ dq +:+
  tmpl event +:+ dq +:+ " event.".

Definition unsubscribed_line (name : string) (event : string) : string :=
  "EventGateway: Function " +:+ dq +:+ name +:+ dq +:+ " unsubscribed from " +:+ dq +:+
  event +:+ dq +:+ " event.".

Definition deleted_line (functionId : string) : string :=
  "EventGateway: Function " +:+ dq +:+ functionId +:+ dq +:+ " deleted.".

(** [xs.forEach(f)] where [xs] may be [undefined]. *)
Definition forEach_of {A : Type} (what : string) (f : A → M unit) (xs : option (list A)) : M unit :=
  match xs with
  | Some xs => forEach f xs
  | None => throw (TypeError (what +:+ ".forEach"))
  end.

Section Engine.

(** The plugin instance: the provider of the host tool, the gateway behind
    the client, and [this.serverless.service]'s functions. *)
Variable awsProvider : host.
Variable eg : gateway.
Variable service_functions : functions_t.

(** The callback over [functionEvents] for a function that was not
    registered (lines 166-169). *)
Definition subscribe_new (config : option positive) (name : string)
    (functionId : option string) (ev : trigger) : M unit :=
  to (createSubscription config eg functionId (eventgateway ev));;
  match eventgateway ev with
  | None => throw (TypeError "event.eventgateway.event")
  | Some e => consoleLog (subscribed_line name (event e))
  end.

(** The predicate of line 180. *)
Definition same_subscription (config : option positive) (ev : option gwevent)
    (s : subscription) : M bool :=
  match ev with
  | None => throw (TypeError "event.event")
  | Some e =>
      if negb (loose_eq (Some (s_event s)) (event e)) then mret false else
      if negb (loose_eq (s_method s) (method e)) then mret false else
      subdomain ← prop_of config "subdomain";
      mret (loose_eq (s_path s) (Some (eventPath e subdomain)))
  end.

(** The callback over [functionEvents] for a function that is registered
    (lines 176-190). *)
Definition reconcile_event (config : option positive) (name : string)
    (functionId : option string) (ev : trigger) : M unit :=
  let ev := eventgateway ev in
  candidates ← read createdSubscriptions;
  createdSubscription ← findM (same_subscription config ev) candidates;
  match createdSubscription with
  | None =>
      to (createSubscription config eg functionId ev);;
      match ev with
      | None => throw (TypeError "event.event")
      | Some e => consoleLog (subscribed_line name (event e))
      end
  | Some createdSubscription =>
      current ← read createdSubscriptions;
      write (set_createdSubscriptions
               (filter (λ s, subscriptionId s ≠ subscriptionId createdSubscription) current))
  end.

(** The callback over the stale subscriptions (lines 193-196): the
    [unsubscribe] promise is dropped, not awaited. *)
Definition cleanup (name : string) (sub : subscription) : M unit :=
  detached (eg_unsubscribe eg (subscriptionId sub));;
  consoleLog (unsubscribed_line name (s_event sub)).

(** The callback of line 142, for one qualifying function.  The callbacks
    over [functionEvents] (lines 166 and 176) are [async] as well and are
    run one after the other here, each to its end: in a real run every
    request of the loop is sent before any of the confirmations that follow
    an [await] is printed (see [configureEventGateway]). *)
Definition reconcile_function (config : option positive) (outputs : gmap string string)
    (subscriptions : option (list subscription)) (name : string) : M unit :=
  let outputKey := getLambdaVersionOutputLogicalId awsProvider name in
  match outputs !! outputKey with
  | None => throw (TypeError "fullArn.split")
  | Some fullArn =>
      let arn := join ":" (take 7 (split ":" fullArn)) in
      let functionId := split ":" fullArn !! 6%nat in
      let fn :=
        {| fn_functionId := functionId;
           fn_provider :=
             {| type := "awslambda";
                arn := arn;
                region := getRegion awsProvider;
                awsAccessKeyId := outputs !! "EventGatewayUserAccessKey";
                awsSecretAccessKey := outputs !! "EventGatewayUserSecretKey" |} |} in
      let functionEvents := getFunction service_functions name ≫= events in
      known ← read functions;
      match known with
      | None => throw (TypeError "functions.find")
      | Some known =>
          match List.find (λ f, bool_decide (Some (f_functionId f) = functionId)) known with
          | None =>
              to (registerFunction eg fn);;
              consoleLog (registered_line name (fn_functionId fn));;
              forEach_of "functionEvents"
                (λ ev, detached (subscribe_new config name functionId ev)) functionEvents
          | Some registeredFunction =>
              write (set_functions
                       (Some (filter (λ f, Some (f_functionId f) ≠ functionId) known)));;
              match subscriptions with
              | None => throw (TypeError "subscriptions.filter")
              | Some subscriptions =>
                  write (set_createdSubscriptions
                           (filter (λ s, Some (s_functionId s) = functionId) subscriptions));;
                  forEach_of "functionEvents"
                    (λ ev, detached (reconcile_event config name functionId ev))
                    functionEvents;;
                  stale ← read createdSubscriptions;
                  forEach (λ sub, detached (cleanup name sub)) stale
              end
          end
      end
  end.

(** The callback of line 201, for one function the project no longer
    declares. *)
Definition delete_function (subscriptions : option (list subscription))
    (functionToDelete : regfn) : M unit :=
  match subscriptions with
  | None => throw (TypeError "subscriptions.filter")
  | Some subscriptions =>
      let subscriptionsToDelete :=
        filter (λ s, s_functionId s = f_functionId functionToDelete) subscriptions in
      to (Promise_all
            (map (λ toDelete, eg_unsubscribe eg (subscriptionId toDelete))
               subscriptionsToDelete));;
      to (eg_deleteFunction eg (f_functionId functionToDelete));;
      consoleLog (deleted_line (f_functionId functionToDelete))
  end.

(** [configureEventGateway()].

    The three tests on a caught rejection (lines 116, 132 and 137) are
    truthiness tests: a stack request rejected with an empty reason goes on
    to read [data.Stacks] off [undefined]; a listing rejected with an empty
    reason leaves [undefined] in [functions] or [subscriptions], and the
    first method call on it throws.

    Each [async] callback of a [map] or a [forEach] is run to its end
    before the next one starts, so the observations of one callback are
    contiguous in the trace.  The runtime runs each callback to its first
    [await] and resumes it when the awaited promise settles, so the trace
    of a real run is an interleaving of the callbacks' observations: it has
    the part of the trace up to the listings as it is here, the same
    observations after it, each callback's own in the order given here, and
    any order between different callbacks.  Every read and write of
    [functions] and [createdSubscriptions] happens before the first [await]
    of its callback, in the order given here, so the store at the end is
    that of a real run. *)
Definition configureEventGateway : M unit :=
  config ← getConfig;
  _ ← getClient;
  consoleLog "";;
  consoleLog "Event Gateway Plugin";;
  emit (DescribeStacks (getStackName awsProvider));;
  match describeStacks awsProvider (getStackName awsProvider)
          (getStage awsProvider) (getRegion awsProvider) with
  | inl err =>
      if truthy_error err then throw StackDescribeFailed
      else throw (TypeError "data.Stacks")
  | inr Stacks =>
      match last Stacks with
      | None => throw StackNotFound
      | Some stack =>
          let outputs := parseOutputs stack in
          if negb (truthy (outputs !! "EventGatewayUserAccessKey"))
             || negb (truthy (outputs !! "EventGatewayUserSecretKey"))
          then throw MissingCredentialsOutput
          else
            write (set_functions (Some []));;
            listed ← to (eg_listFunctions eg);
            (if negb (truthy_err listed.1) then write (set_functions listed.2)
             else mret ());;
            listed ← to (eg_listSubscriptions eg);
            let subscriptions := if negb (truthy_err listed.1) then listed.2 else Some [] in
            forEach (λ name, detached (reconcile_function config outputs subscriptions name))
              (filterFunctionsWithEvents service_functions);;
            orphans ← read functions;
            forEach_of "functions"
              (λ functionToDelete, detached (delete_function subscriptions functionToDelete))
              orphans
      end
  end.

End Engine.

(** ** Definitions used to state the properties *)

(** The path of the specification's words: the declared path, [/] when it
    is absent, with a [/] put in front when it does not start with one. *)
Definition spec_path (e : gwevent) : string :=
  let p := default "/" (path e) in
  if startsWith p "/" then p else "/" +:+ p.

(** The request [createSubscription] builds for an event, or the error it
    throws before it calls the gateway. *)
Definition subscribe_request (functionId subdomain : option string) (e : gwevent)
    : error + subscribe_req :=
  if bool_decide (event e = Some "http") then
    match method e with
    | None => inl (TypeError "event.method.toUpperCase")
    | Some m =>
        inr {| sr_functionId := functionId;
               sr_event := event e;
               sr_path := eventPath e subdomain;
               sr_cors := cors e;
               sr_method := js_or (Some (toUpperCase m)) (Some "GET") |}
    end
  else
    inr {| sr_functionId := functionId;
           sr_event := event e;
           sr_path := eventPath e subdomain;
           sr_cors := cors e;
           sr_method := None |}.

(** The requests of a trace that change the gateway. *)
Definition changes_gateway (o : obs) : bool :=
  match o with
  | Call (registerFunction_call _) | Call (subscribe _)
  | Call (unsubscribe _) | Call (deleteFunction _) => true
  | _ => false
  end.

Definition is_call (o : obs) : bool :=
  match o with Call _ => true | _ => false end.

Definition is_subscribe (o : obs) : bool :=
  match o with Call (subscribe _) => true | _ => false end.

(** The subscription a gateway holds once it has accepted [req] under [id]. *)
Definition stored (id : string) (req : subscribe_req) : subscription :=
  {| subscriptionId := id;
     s_functionId := tmpl (sr_functionId req);
     s_event := tmpl (sr_event req);
     s_method := sr_method req;
     s_path := Some (sr_path req) |}.

(** *** A small project, used for the concrete runs below *)

Definition output_of (k v : string) : output :=
  {| OutputKey := Some k; OutputValue := Some v |}.

Definition demo_outputs : list output :=
  [output_of "EventGatewayUserAccessKey" "AKIAEXAMPLE";
   output_of "EventGatewayUserSecretKey" "secret";
   output_of "HelloLambdaFunctionQualifiedArn"
     "arn:aws:lambda:us-east-1:123456789012:function:myFunc:5"].

(** A provider whose stack [svc-dev] has the given outputs; the naming
    helpers put the host tool's suffixes after the function name. *)
Definition demo_provider (outs : list output) : host :=
  {| getStackName := "svc-dev";
     getStage := "dev";
     getRegion := "us-east-1";
     getLambdaLogicalId := λ name, name +:+ "LambdaFunction";
     getLambdaVersionOutputLogicalId := λ name, name +:+ "LambdaFunctionQualifiedArn";
     describeStacks := λ _ _ _, inr [ {| Outputs := outs |} ] |}.

(** A gateway that lists [fs] and [ss] and accepts every request. *)
Definition accepting (fs : list regfn) (ss : list subscription) : gateway :=
  {| gw_listFunctions := inr fs;
     gw_listSubscriptions := inr ss;
     gw_registerFunction := λ _, None;
     gw_subscribe := λ _, None;
     gw_unsubscribe := λ _, None;
     gw_deleteFunction := λ _, None |}.

(** A gateway that knows nothing and rejects every registration. *)
Definition rejecting_registration : gateway :=
  {| gw_listFunctions := inr [];
     gw_listSubscriptions := inr [];
     gw_registerFunction := λ _, Some (Rejection "conflict");
     gw_subscribe := λ _, None;
     gw_unsubscribe := λ _, None;
     gw_deleteFunction := λ _, None |}.

(** A store whose configuration tree holds the section [section] at
    reference 1, or no section at all. *)
Definition store_with (section : option (gmap string string)) : state :=
  {| heap := match section with Some o => {[ 1%positive := o ]} | None => ∅ end;
     custom := Some {| custom_eventgateway :=
                         match section with Some _ => Some 1%positive | None => None end |};
     EVENT_GATEWAY_TOKEN := None;
     functions := Some [];
     createdSubscriptions := [];
     trace := [] |}.

(** A store whose project has no [custom] settings at all. *)
Definition no_custom : state :=
  {| heap := ∅;
     custom := None;
     EVENT_GATEWAY_TOKEN := None;
     functions := Some [];
     createdSubscriptions := [];
     trace := [] |}.

Definition acme : state :=
  store_with (Some {[ "subdomain" := "acme"; "apikey" := "k" ]}).

Definition gw_trigger (e p m : option string) : trigger :=
  {| eventgateway := Some {| event := e; path := p; method := m; cors := None |} |}.

Definition other_trigger : trigger := {| eventgateway := None |}.

Definition one_function (evs : list trigger) : functions_t :=
  [("Hello", {| events := Some evs |})].

Definition myFunc_descriptor : fn_descriptor :=
  {| fn_functionId := Some "myFunc";
     fn_provider :=
       {| type := "awslambda";
          arn := "arn:aws:lambda:us-east-1:123456789012:function:myFunc";
          region := "us-east-1";
          awsAccessKeyId := Some "AKIAEXAMPLE";
          awsSecretAccessKey := Some "secret" |} |}.

Definition hello_request (e m : option string) : subscribe_req :=
  {| sr_functionId := Some "myFunc";
     sr_event := e;
     sr_path := "/acme/hello";
     sr_cors := None;
     sr_method := m |}.

(** What a run of the engine shows, from the store [acme]. *)
Definition run (awsProvider : host) (eg : gateway) (fns : functions_t) : outcome () * list obs :=
  let r := configureEventGateway awsProvider eg fns acme in (r.1, trace r.2).

(** The lines every run starts with. *)
Definition preamble : list obs :=
  [Log ""; Log "Event Gateway Plugin"; DescribeStacks "svc-dev"].

(** The section [getConfig] leaves in the store: the stored section with the
    two endpoint properties written into it. *)
Definition eventsAPI_of (section : gmap string string) : string :=
  "https://" +:+ tmpl (section !! "subdomain") +:+ ".eventgateway-dev.io".

Definition resolved (section : gmap string string) : gmap string string :=
  <["configurationAPI" := "https://config.eventgateway-dev.io/"]>
    (<["eventsAPI" := eventsAPI_of section]> section).


(** What the specification says of [getConfig]: the section the project
    stores reads the same after the call as before it. *)
Definition getConfig_leaves_section (s : state) : Prop :=
  ∀ l, custom s ≫= custom_eventgateway = Some l →
       heap (getConfig s).2 !! l = heap s !! l.

(** A store with a section that has an [apikey] and no [subdomain], and a
    token left by an earlier command. *)
Definition no_subdomain : state :=
  set_token (Some "old") (store_with (Some {[ "apikey" := "k" ]})).

(** A function qualifies when it has an [events] list and one of the events
    carries an [eventgateway] section. *)
Definition qualifies (fns : functions_t) (name : string) : bool :=
  match getFunction fns name ≫= events with
  | Some evs => existsb has_eventgateway evs
  | None => false
  end.






(** The store once [getConfig] and [getClient] have both returned: the
    section carries the endpoints and the token is the section's key. *)
Definition after_getClient (s : state) (l : positive) (section : gmap string string) : state :=
  set_token (section !! "apikey") (set_heap (<[l := resolved section]> (heap s)) s).

(** A stack whose outputs lack the secret key. *)
Definition outputs_without_secret : list output :=
  [output_of "EventGatewayUserAccessKey" "AKIAEXAMPLE";
   output_of "HelloLambdaFunctionQualifiedArn"
     "arn:aws:lambda:us-east-1:123456789012:function:myFunc:5"].

(** The descriptor line 148 builds from the stack outputs and the function's
    versioned ARN. *)
Definition descriptor (awsProvider : host) (outputs : gmap string string)
    (fullArn : string) : fn_descriptor :=
  {| fn_functionId := split ":" fullArn !! 6%nat;
     fn_provider :=
       {| type := "awslambda";
          arn := join ":" (take 7 (split ":" fullArn));
          region := getRegion awsProvider;
          awsAccessKeyId := outputs !! "EventGatewayUserAccessKey";
          awsSecretAccessKey := outputs !! "EventGatewayUserSecretKey" |} |}.

(** What the callback of lines 166-169 shows for one entry of a function's
    [events] list: the request, when one is built, then the confirmation;
    or, for a trigger of another kind, the rejection of the callback. *)
Definition subscribe_new_obs (functionId subdomain : option string) (name : string)
    (ev : trigger) : list obs :=
  match eventgateway ev with
  | None => [Unhandled (TypeError "event.eventgateway.event")]
  | Some e =>
      match subscribe_request functionId subdomain e with
      | inl _ => []
      | inr req => [Call (subscribe req)]
      end ++ [Log (subscribed_line name (event e))]
  end.

(** What the specification says of a rejected registration: the failure
    surfaces as [FunctionRegistrationFailed], the function is not reported
    as registered, and no subscription is requested for it. *)
Definition registration_failure_is_fatal (t : list obs) (name : string)
    (functionId : option string) : Prop :=
  (∃ err, Unhandled (FunctionRegistrationFailed functionId err) ∈ t) ∧
  (Log (registered_line name functionId) ∉ t) ∧
  (∀ req, sr_functionId req = functionId → Call (subscribe req) ∉ t).

(** The outputs of the demo stack, as [parseOutputs] reads them. *)
Definition demo_parsed : gmap string string :=
  parseOutputs {| Outputs := demo_outputs |}.

(** A function with one custom event. *)
Definition user_created : functions_t :=
  one_function [gw_trigger (Some "user.created") (Some "/hello") None].

(** A function with one custom event and one trigger of another kind. *)
Definition user_created_and_schedule : functions_t :=
  one_function [gw_trigger (Some "user.created") (Some "/hello") None; other_trigger].

(** The example of the specification: one [http] event, [method] absent. *)
Definition http_without_method : functions_t :=
  one_function [gw_trigger (Some "http") (Some "/hello") None].

(** One [http] event whose method is written in lower case. *)
Definition http_get : functions_t :=
  one_function [gw_trigger (Some "http") (Some "/hello") (Some "get")].

(** *** A gateway that already matches the declarations *)

(** The identity the engine compares: what a stored subscription shows, and
    what a declared gateway event asks for (line 180). *)
Definition shown (s : subscription) : option string * option string * option string :=
  (Some (s_event s), s_method s, s_path s).

Definition wanted (subdomain : option string) (e : gwevent)
    : option string * option string * option string :=
  (event e, method e, Some (eventPath e subdomain)).

(** The predicate of line 180 on a declared gateway event. *)
Definition matchb (subdomain : option string) (e : gwevent) (s : subscription) : bool :=
  loose_eq (Some (s_event s)) (event e)
  && loose_eq (s_method s) (method e)
  && loose_eq (s_path s) (Some (eventPath e subdomain)).

(** The declared gateway events among a function's triggers. *)
Definition gateway_events (evs : list trigger) : list gwevent := omap eventgateway evs.

(** The function id the engine derives for a declared function. *)
Definition functionId_of (awsProvider : host) (outputs : gmap string string)
    (name : string) : option string :=
  outputs !! getLambdaVersionOutputLogicalId awsProvider name ≫= λ fullArn,
  split ":" fullArn !! 6%nat.

(** The gateway's subscriptions match a declared function: those of the
    function's id have distinct subscription ids and are, up to order, what
    the function's declared gateway events ask for. *)
Definition subscriptions_match (awsProvider : host) (fns : functions_t)
    (outputs : gmap string string) (subdomain : option string)
    (subscriptions : list subscription) (name : string) : Prop :=
  ∃ evs,
    getFunction fns name ≫= events = Some evs ∧
    let own := filter (λ s, Some (s_functionId s) = functionId_of awsProvider outputs name)
                 subscriptions in
    NoDup (subscriptionId <$> own) ∧
    shown <$> own ≡ₚ wanted subdomain <$> gateway_events evs.

(** What a trigger of another kind leaves in the trace of a registered
    function. *)
Definition reconcile_event_obs (ev : trigger) : list obs :=
  match eventgateway ev with
  | None => [Unhandled (TypeError "event.event")]
  | Some _ => []
  end.

(** One [http] event whose method is written in upper case. *)
Definition http_GET : functions_t :=
  one_function [gw_trigger (Some "http") (Some "/hello") (Some "GET")].

(** ** Definitions used to state further properties of the code *)

(** An entry of the stack's output list that [parseOutputs] keeps: it has a
    non-empty key and a non-empty value. *)
Definition kept (o : output) : Prop :=
  truthy (OutputKey o) = true ∧ truthy (OutputValue o) = true.

Global Instance kept_dec (o : output) : Decision (kept o).
Proof. unfold kept. apply _. Defined.

(** The property names a plain object inherits from [Object.prototype]: a
    read of one of them on the object [parseOutputs] returns finds the
    inherited value when the object has no property of its own under the
    name. *)
Definition Object_prototype : list string :=
  ["constructor"; "__proto__"; "hasOwnProperty"; "isPrototypeOf";
   "propertyIsEnumerable"; "toLocaleString"; "toString"; "valueOf";
   "__defineGetter__"; "__defineSetter__"; "__lookupGetter__"; "__lookupSetter__"].

(** A stack that gives a key twice and has entries that are not kept. *)
Definition repeated_outputs : stack :=
  {| Outputs := [output_of "Arn" "first"; {| OutputKey := Some "Arn"; OutputValue := None |};
                 output_of "Arn" "second"; output_of "Arn" "";
                 output_of "__proto__" "ignored"] |}.

(** A segment of a colon-separated string: no colon inside. *)
Fixpoint colon_free (s : string) : Prop :=
  match s with
  | EmptyString => True
  | String c r => c ≠ ":"%char ∧ colon_free r
  end.

(** A store with a section that has a [subdomain] and no [apikey], and a
    token left by an earlier command. *)
Definition no_apikey : state :=
  set_token (Some "old") (store_with (Some {[ "subdomain" := "acme" ]})).

(** An event that declares only a path. *)
Definition with_path (p : option string) : gwevent :=
  {| event := None; path := p; method := None; cors := None |}.

(** The segments of the versioned ARN of the specification's example. *)
Definition myFunc_segments : list string :=
  ["arn"; "aws"; "lambda"; "us-east-1"; "123456789012"; "function"; "myFunc"; "5"].

(** What [getClient] returns or throws, as a function of the section. *)
Definition client_for (section : gmap string string) : outcome SDK :=
  if negb (truthy (section !! "subdomain")) then Throw (MissingField "subdomain")
  else if negb (truthy (section !! "apikey")) then Throw (MissingField "apikey")
  else Return {| url := "http://localhost:4000";
                 configurationUrl := "http://localhost:8080";
                 space := section !! "subdomain" |}.

(** The banner and the stack request every run starts with. *)
Definition banner (awsProvider : host) : list obs :=
  [Log ""; Log "Event Gateway Plugin"; DescribeStacks (getStackName awsProvider)].

(** A provider whose stack request is rejected, and one that finds no
    stack. *)
Definition failing_provider : host :=
  {| getStackName := "svc-dev";
     getStage := "dev";
     getRegion := "us-east-1";
     getLambdaLogicalId := λ name, name +:+ "LambdaFunction";
     getLambdaVersionOutputLogicalId := λ name, name +:+ "LambdaFunctionQualifiedArn";
     describeStacks := λ _ _ _, inl (Rejection "AccessDenied") |}.

(** A provider whose stack request is rejected with an empty reason. *)
Definition silent_provider : host :=
  {| getStackName := "svc-dev";
     getStage := "dev";
     getRegion := "us-east-1";
     getLambdaLogicalId := λ name, name +:+ "LambdaFunction";
     getLambdaVersionOutputLogicalId := λ name, name +:+ "LambdaFunctionQualifiedArn";
     describeStacks := λ _ _ _, inl (Rejection "") |}.

Definition empty_provider : host :=
  {| getStackName := "svc-dev";
     getStage := "dev";
     getRegion := "us-east-1";
     getLambdaLogicalId := λ name, name +:+ "LambdaFunction";
     getLambdaVersionOutputLogicalId := λ name, name +:+ "LambdaFunctionQualifiedArn";
     describeStacks := λ _ _ _, inr [] |}.

(** *** What the reconciliation may and may not do *)

Definition is_delete (o : obs) : bool :=
  match o with Call (deleteFunction _) => true | _ => false end.

Definition is_unsubscribe (o : obs) : bool :=
  match o with Call (unsubscribe _) => true | _ => false end.

(** What the callback of line 201 shows for one function: an [unsubscribe]
    for each subscription of the function, the [deleteFunction], the
    confirmation. *)
Definition delete_obs (subscriptions : list subscription) (functionToDelete : regfn)
    : list obs :=
  ((λ toDelete, Call (unsubscribe (subscriptionId toDelete))) <$>
     filter (λ s, s_functionId s = f_functionId functionToDelete) subscriptions)
  ++ [Call (deleteFunction (f_functionId functionToDelete));
      Log (deleted_line (f_functionId functionToDelete))].

(** The same when [subscriptions] may be [undefined]: the callback then
    throws at line 202 and sends nothing. *)
Definition deletion_obs (subscriptions : option (list subscription))
    (functionToDelete : regfn) : list obs :=
  match subscriptions with
  | Some subscriptions => delete_obs subscriptions functionToDelete
  | None => [Unhandled (TypeError "subscriptions.filter")]
  end.

(** What the callback of line 193 shows for one stale subscription. *)
Definition cleanup_obs (eg : gateway) (name : string) (sub : subscription) : list obs :=
  Call (unsubscribe (subscriptionId sub))
  :: match gw_unsubscribe eg (subscriptionId sub) with
     | Some err => [Unhandled err]
     | None => []
     end
  ++ [Log (unsubscribed_line name (s_event sub))].

(** The listed functions whose id no qualifying declared function derives. *)
Definition orphans (awsProvider : host) (outputs : gmap string string)
    (names : list string) (fs : list regfn) : list regfn :=
  filter (λ f, Some (f_functionId f) ∉ functionId_of awsProvider outputs <$> names) fs.

(** An observation that neither removes nor lists anything: a registration,
    a subscription, a log line or a rejection. *)
Definition adds_only (o : obs) : Prop :=
  match o with
  | Call (registerFunction_call _) | Call (subscribe _) | Log _ | Unhandled _ => True
  | _ => False
  end.

(** An observation of the loop over the declared functions: it adds only,
    or it unsubscribes a listed subscription of a listed function. *)
Definition reconciles (fs : list regfn) (ss : list subscription) (o : obs) : Prop :=
  adds_only o ∨
  ∃ sub, o = Call (unsubscribe (subscriptionId sub)) ∧ sub ∈ ss ∧
         s_functionId sub ∈ f_functionId <$> fs.

(** What the gateway listed: nothing when it rejected the listing. *)
Definition listed_functions (eg : gateway) : list regfn :=
  match gw_listFunctions eg with inr result => result | inl _ => [] end.

Definition listed_subscriptions (eg : gateway) : list subscription :=
  match gw_listSubscriptions eg with inr result => result | inl _ => [] end.

(** What lines 130-139 leave in [functions] and in [subscriptions]: the
    listing; the empty array of line 130 when the listing was rejected with
    a truthy reason; [undefined] when it was rejected with an empty reason,
    which the tests of lines 132 and 137 take for no error. *)
Definition functions_after_listing (eg : gateway) : option (list regfn) :=
  match gw_listFunctions eg with
  | inr result => Some result
  | inl err => if truthy_error err then Some [] else None
  end.

Definition subscriptions_after_listing (eg : gateway) : option (list subscription) :=
  match gw_listSubscriptions eg with
  | inr result => Some result
  | inl err => if truthy_error err then Some [] else None
  end.

(** A run that reaches the reconciliation: a valid configuration, a stack,
    and both credentials among the stack's outputs. *)
Definition reaches_reconciliation (awsProvider : host) (s : state) (st : stack) : Prop :=
  ∃ l section stacks,
    custom s ≫= custom_eventgateway = Some l ∧
    heap s !! l = Some section ∧
    truthy (section !! "subdomain") = true ∧
    truthy (section !! "apikey") = true ∧
    describeStacks awsProvider (getStackName awsProvider) (getStage awsProvider)
      (getRegion awsProvider) = inr stacks ∧
    last stacks = Some st ∧
    truthy (parseOutputs st !! "EventGatewayUserAccessKey") = true ∧
    truthy (parseOutputs st !! "EventGatewayUserSecretKey") = true.

(** The functions the loop of line 201 deletes: the orphans among the listed
    functions, and none of them when [subscriptions] is [undefined]. *)
Definition deleted_functions (awsProvider : host) (eg : gateway)
    (outputs : gmap string string) (names : list string) : list regfn :=
  match subscriptions_after_listing eg with
  | Some _ => orphans awsProvider outputs names (listed_functions eg)
  | None => []
  end.



Definition is_listing (o : obs) : bool :=
  match o with
  | Call listFunctions | Call listSubscriptions | DescribeStacks _ => true
  | _ => false
  end.

Definition removes (o : obs) : bool := is_delete o || is_unsubscribe o.

(** A gateway that holds the function of the demo project with its
    subscription, and a function [old] with a subscription of its own that
    the project does not declare. *)
Definition with_orphan : gateway :=
  accepting [ {| f_functionId := "myFunc" |}; {| f_functionId := "old" |} ]
            [stored "sub-1" (hello_request (Some "http") (Some "GET"));
             {| subscriptionId := "sub-2"; s_functionId := "old"; s_event := "order.created";
                s_method := None; s_path := Some "/acme/orders" |}].

(** The same gateway when the listing of functions fails. *)
Definition unlistable : gateway :=
  {| gw_listFunctions := inl (Rejection "timeout");
     gw_listSubscriptions := gw_listSubscriptions with_orphan;
     gw_registerFunction := λ _, None;
     gw_subscribe := λ _, None;
     gw_unsubscribe := λ _, None;
     gw_deleteFunction := λ _, None |}.

(** The same gateway when both listings are rejected with an empty
    reason. *)
Definition mute : gateway :=
  {| gw_listFunctions := inl (Rejection "");
     gw_listSubscriptions := inl (Rejection "");
     gw_registerFunction := λ _, None;
     gw_subscribe := λ _, None;
     gw_unsubscribe := λ _, None;
     gw_deleteFunction := λ _, None |}.

(** A gateway that lists the two functions and rejects the listing of
    subscriptions with an empty reason. *)
Definition half_mute : gateway :=
  {| gw_listFunctions := gw_listFunctions with_orphan;
     gw_listSubscriptions := inl (Rejection "");
     gw_registerFunction := λ _, None;
     gw_subscribe := λ _, None;
     gw_unsubscribe := λ _, None;
     gw_deleteFunction := λ _, None |}.




(** ** The emit command: [emitEvent] *)

(** The argument of [eg.emit]: the command's [event] option and the value
    [JSON.parse] built from its [data] option. *)
Record emission (value : Type) : Type := {
  em_event : option string;
  em_data : value
}.
Arguments em_event {value} _.
Arguments em_data {value} _.

Definition emitted_line (event : option string) : string :=
  "Event emitted:" +:+ " " +:+ tmpl event.

Definition verify_line : string :=
  "Run `serverless logs -f <functionName>` to verify your subscribed function was triggered.".

(** [emitEvent] (lines 41-56).  [JSON_parse] is the builtin: the value it
    builds or the error it throws; [emit_answer] is how the gateway settles
    the promise of [eg.emit].  The observation type of the deployment hook
    has no constructor for an emitted event, so the requests handed to
    [eg.emit] are returned beside the outcome and the store.  The promise
    that [then] returns is dropped. *)
Definition emitEvent {value : Type} (JSON_parse : option string → error + value)
    (emit_answer : SDK → emission value → option error)
    (options_event options_data : option string)
    : state → outcome unit * state * list (emission value) := λ s,
  match getClient s with
  | (Throw e, s1) => (Throw e, s1, [])
  | (Return eg, s1) =>
      match JSON_parse options_data with
      | inl e => (Throw e, s1, [])
      | inr data =>
          let request := {| em_event := options_event; em_data := data |} in
          (detached (settle (emit_answer eg request);;
                     consoleLog (emitted_line options_event);;
                     consoleLog verify_line) s1,
           [request])
      end
  end.

Definition is_log (o : obs) : bool :=
  match o with Log _ => true | _ => false end.

(** A parser that accepts one text only. *)
Definition parse_demo (data : option string) : error + string :=
  match data with
  | Some "{}" => inr "empty object"
  | _ => inl (Error "SyntaxError: Unexpected end of JSON input")
  end.
(** * Properties *)

(** ** Subscription Path Builder *)

Lemma js_or_path_default (p : option string) :
  default "/" (js_or p (Some "/")) =
  match p with Some (String c r) => String c r | _ => "/" end.
Proof. by destruct p as [[|c r]|]. Qed.

(** C9. For every event descriptor and subdomain, [eventPath] returns the
    slash, the subdomain and then the declared path, where the path is [/]
    when absent and gets a leading [/] when it has none; the three examples
    of the specification evaluate as it says. *)
Theorem eventPath_prefixes_subdomain :
  (∀ (e : gwevent) (subdomain : option string),
      eventPath e subdomain = "/" +:+ tmpl subdomain +:+ spec_path e) ∧
  eventPath {| event := None; path := Some "/widgets"; method := None; cors := None |}
    (Some "acme") = "/acme/widgets" ∧
  eventPath {| event := None; path := Some "widgets"; method := None; cors := None |}
    (Some "acme") = "/acme/widgets" ∧
  eventPath {| event := None; path := None; method := None; cors := None |}
    (Some "acme") = "/acme/".
Proof.
  split; [|by repeat split].
  intros e subdomain. unfold eventPath, spec_path.
  rewrite js_or_path_default.
  destruct (path e) as [[|c r]|]; simpl; try reflexivity.
  by destruct (bool_decide (c = "/"%char)).
Qed.

(** ** Configuration Resolver *)

Lemma getConfig_present (s : state) (l : positive) :
  custom s ≫= custom_eventgateway = Some l →
  getConfig s =
    (Return (Some l), set_heap (<[l := resolved (default ∅ (heap s !! l))]> (heap s)) s).
Proof.
  intros Hl. unfold getConfig. rewrite Hl.
  unfold mbind, M_bind, get_prop, set_prop, mret, M_ret. simpl.
  f_equal. unfold set_heap. simpl. f_equal.
  rewrite lookup_insert_eq. simpl. rewrite insert_insert_eq.
  unfold resolved, eventsAPI_of.
  by destruct (heap s !! l).
Qed.

Lemma getConfig_absent (s : state) :
  custom s ≫= custom_eventgateway = None → getConfig s = (Return None, s).
Proof. intros H. unfold getConfig. by rewrite H. Qed.

Lemma resolved_other (section : gmap string string) (k : string) :
  k ≠ "eventsAPI" → k ≠ "configurationAPI" → resolved section !! k = section !! k.
Proof.
  intros H1 H2. unfold resolved.
  rewrite lookup_insert_ne by done. by rewrite lookup_insert_ne.
Qed.

(** C7, as stated, fails: on the store [acme] the stored section gains the
    endpoint properties. *)
Lemma getConfig_mutates_section : ¬ getConfig_leaves_section acme.
Proof.
  intros H. specialize (H 1%positive eq_refl).
  apply (f_equal (λ o, o ≫= (.!! "eventsAPI"))) in H.
  vm_compute in H. discriminate H.
Qed.

(** C7, amended. When the project has an [eventgateway] section, [getConfig]
    returns the reference the configuration tree itself holds, not a copy,
    and writes [eventsAPI] and [configurationAPI] into the stored section;
    every other property of the section, every other object, the tree, the
    token and the trace stay as they were.  When the project has no
    section, [getConfig] returns [null] and changes nothing. *)
Theorem getConfig_augments_in_place (s : state) :
  (∀ (l : positive) (section : gmap string string),
     custom s ≫= custom_eventgateway = Some l →
     heap s !! l = Some section →
     (getConfig s).1 = Return (Some l) ∧
     (∃ section',
         heap (getConfig s).2 !! l = Some section' ∧
         section' !! "eventsAPI" =
           Some ("https://" +:+ tmpl (section !! "subdomain") +:+ ".eventgateway-dev.io") ∧
         section' !! "configurationAPI" = Some "https://config.eventgateway-dev.io/" ∧
         (∀ k, k ≠ "eventsAPI" → k ≠ "configurationAPI" → section' !! k = section !! k)) ∧
     (∀ l', l' ≠ l → heap (getConfig s).2 !! l' = heap s !! l') ∧
     custom (getConfig s).2 = custom s ∧
     EVENT_GATEWAY_TOKEN (getConfig s).2 = EVENT_GATEWAY_TOKEN s ∧
     trace (getConfig s).2 = trace s) ∧
  (custom s ≫= custom_eventgateway = None → getConfig s = (Return None, s)).
Proof.
  split; [|apply getConfig_absent].
  intros l section Hl Hs. rewrite (getConfig_present s l Hl), Hs. simpl.
  split; [done|]. split.
  - exists (resolved section). rewrite lookup_insert_eq.
    split; [done|]. split; [|split].
    + unfold resolved. by rewrite lookup_insert_ne, lookup_insert_eq.
    + unfold resolved. by rewrite lookup_insert_eq.
    + apply resolved_other.
  - split; [|done]. intros l' Hne. by rewrite lookup_insert_ne.
Qed.

Lemma getConfig_augments_in_place_witness :
  ((getConfig acme).1 = Return (Some 1%positive) ∧
   (∃ section',
       heap (getConfig acme).2 !! 1%positive = Some section' ∧
       section' !! "eventsAPI" = Some "https://acme.eventgateway-dev.io" ∧
       section' !! "configurationAPI" = Some "https://config.eventgateway-dev.io/" ∧
       (∀ k, k ≠ "eventsAPI" → k ≠ "configurationAPI" →
             section' !! k
             = ({[ "subdomain" := "acme"; "apikey" := "k" ]} : gmap string string) !! k)) ∧
   (∀ l', l' ≠ 1%positive → heap (getConfig acme).2 !! l' = heap acme !! l') ∧
   custom (getConfig acme).2 = custom acme ∧
   EVENT_GATEWAY_TOKEN (getConfig acme).2 = EVENT_GATEWAY_TOKEN acme ∧
   trace (getConfig acme).2 = trace acme) ∧
  getConfig (store_with None) = (Return None, store_with None) ∧
  getConfig no_custom = (Return None, no_custom).
Proof.
  split; [|split].
  - exact (proj1 (getConfig_augments_in_place acme) 1%positive
             {[ "subdomain" := "acme"; "apikey" := "k" ]} eq_refl eq_refl).
  - exact (proj2 (getConfig_augments_in_place (store_with None)) eq_refl).
  - exact (proj2 (getConfig_augments_in_place no_custom) eq_refl).
Defined.

(** ** Gateway Client Factory *)

Lemma getClient_absent (s : state) :
  custom s ≫= custom_eventgateway = None →
  getClient s = (Throw (TypeError "config.apikey"), s).
Proof.
  intros H. unfold getClient, mbind, M_bind.
  by rewrite (getConfig_absent s H).
Qed.

(** C6, on the code. With no [eventgateway] section, whether the [custom]
    settings lack the key or are absent altogether, [getClient] throws the
    [TypeError] of reading [apikey] off [null]; the guard that would throw
    the missing-configuration error comes one line later and is never
    reached.  No client is constructed and the store is untouched. *)
Theorem getClient_without_section :
  getClient (store_with None) = (Throw (TypeError "config.apikey"), store_with None) ∧
  getClient no_custom = (Throw (TypeError "config.apikey"), no_custom) ∧
  (getClient (store_with None)).1 ≠ Throw MissingConfiguration ∧
  (getClient no_custom).1 ≠ Throw MissingConfiguration.
Proof.
  rewrite (getClient_absent (store_with None) eq_refl).
  rewrite (getClient_absent no_custom eq_refl).
  by repeat split.
Qed.

Lemma getClient_present (s : state) (l : positive) (section : gmap string string) :
  custom s ≫= custom_eventgateway = Some l →
  heap s !! l = Some section →
  let s1 := set_heap (<[l := resolved section]> (heap s)) s in
  let s2 := set_token (Some (tmpl (js_or (section !! "apikey") (EVENT_GATEWAY_TOKEN s)))) s1 in
  getClient s =
    (if negb (truthy (section !! "subdomain")) then Throw (MissingField "subdomain")
     else if negb (truthy (section !! "apikey")) then Throw (MissingField "apikey")
     else Return {| url := "http://localhost:4000";
                    configurationUrl := "http://localhost:8080";
                    space := section !! "subdomain" |},
     s2).
Proof.
  intros Hl Hs. simpl. unfold getClient, mbind, M_bind.
  rewrite (getConfig_present s l Hl), Hs. simpl.
  unfold get_prop. simpl. rewrite lookup_insert_eq. simpl.
  rewrite !resolved_other by done.
  unfold js_or.
  destruct (truthy (section !! "apikey")) eqn:Ha; simpl;
    rewrite ?lookup_insert_eq; simpl; rewrite ?resolved_other by done;
    destruct (truthy (section !! "subdomain")) eqn:Hd; simpl;
    rewrite ?lookup_insert_eq; simpl; rewrite ?resolved_other by done;
    rewrite ?Ha; simpl; rewrite ?lookup_insert_eq; simpl;
    rewrite ?resolved_other by done; reflexivity.
Qed.

(** C10. When the section exists and carries a (non-empty) [apikey],
    [getClient] leaves that key in the process-wide token, whatever the call
    then returns or throws; in particular the token is overwritten when the
    call throws the missing-subdomain error. *)
Theorem getClient_sets_token_before_checks (s : state) (l : positive)
    (section : gmap string string) (k : string) :
  custom s ≫= custom_eventgateway = Some l →
  heap s !! l = Some section →
  section !! "apikey" = Some k →
  k ≠ "" →
  EVENT_GATEWAY_TOKEN (getClient s).2 = Some k ∧
  (truthy (section !! "subdomain") = false →
   (getClient s).1 = Throw (MissingField "subdomain")).
Proof.
  intros Hl Hs Hk Hne.
  rewrite (getClient_present s l section Hl Hs). simpl.
  assert (truthy (section !! "apikey") = true) as Ht.
  { rewrite Hk. by destruct k. }
  unfold js_or. rewrite Ht, Hk. split; [done|].
  by intros ->.
Qed.

Lemma getClient_sets_token_before_checks_witness :
  EVENT_GATEWAY_TOKEN no_subdomain = Some "old" ∧
  EVENT_GATEWAY_TOKEN (getClient no_subdomain).2 = Some "k" ∧
  (getClient no_subdomain).1 = Throw (MissingField "subdomain").
Proof.
  split; [reflexivity|].
  destruct (getClient_sets_token_before_checks no_subdomain 1%positive
              {[ "apikey" := "k" ]} "k" eq_refl eq_refl eq_refl) as [Ht Hthrow].
  - discriminate.
  - split; [exact Ht | exact (Hthrow eq_refl)].
Defined.

(** ** Template Augmenter *)















Lemma filterFunctionsWithEvents_fold (fns : functions_t) (names acc : list string) :
  fold_left
    (λ functions name,
       match getFunction fns name ≫= events with
       | None => functions
       | Some events =>
           match List.find has_eventgateway events with
           | None => functions
           | Some _ => functions ++ [name]
           end
       end) names acc
  = acc ++ List.filter (qualifies fns) names.
Proof.
  revert acc. induction names as [|n r IH]; intros acc; simpl.
  - by rewrite app_nil_r.
  - rewrite IH. unfold qualifies at 2.
    destruct (getFunction fns n ≫= events) as [evs|]; [|done].
    destruct (List.find has_eventgateway evs) as [ev|] eqn:E.
    + apply find_some in E as [Hin Hev].
      assert (existsb has_eventgateway evs = true) as ->
        by (apply existsb_exists; eauto).
      by rewrite <- app_assoc.
    + assert (existsb has_eventgateway evs = false) as ->; [|done].
      apply not_true_is_false. intros [ev [Hin Hev]]%existsb_exists.
      by rewrite (find_none _ _ E ev Hin) in Hev.
Qed.

(** [filterFunctionsWithEvents] lists, in declaration order, the functions
    that qualify. *)
Lemma filterFunctionsWithEvents_qualifies (fns : functions_t) :
  filterFunctionsWithEvents fns = List.filter (qualifies fns) (getAllFunctions fns).
Proof. unfold filterFunctionsWithEvents. by rewrite filterFunctionsWithEvents_fold. Qed.




(** ** Synchronization Engine *)

Lemma bind_Return {A B : Type} (m : M A) (f : A → M B) (s s' : state) (a : A) :
  m s = (Return a, s') → (m ≫= f) s = f a s'.
Proof. intros H. unfold mbind, M_bind. by rewrite H. Qed.

Lemma bind_Throw {A B : Type} (m : M A) (f : A → M B) (s s' : state) (e : error) :
  m s = (Throw e, s') → (m ≫= f) s = (Throw e, s').
Proof. intros H. unfold mbind, M_bind. by rewrite H. Qed.

Lemma detached_Return (body : M unit) (s s' : state) :
  body s = (Return (), s') → detached body s = (Return (), s').
Proof. intros H. unfold detached. by rewrite H. Qed.

Lemma resolved_idemp (section : gmap string string) :
  resolved (resolved section) = resolved section.
Proof.
  assert (eventsAPI_of (resolved section) = eventsAPI_of section) as He.
  { unfold eventsAPI_of. by rewrite resolved_other. }
  apply map_eq. intros k. unfold resolved at 1. rewrite He.
  destruct (decide (k = "configurationAPI")) as [->|Hc].
  { unfold resolved. by rewrite !lookup_insert_eq. }
  rewrite lookup_insert_ne by done.
  destruct (decide (k = "eventsAPI")) as [->|Hv].
  { unfold resolved. rewrite lookup_insert_eq.
    by rewrite lookup_insert_ne, lookup_insert_eq. }
  by rewrite lookup_insert_ne.
Qed.

Lemma truthy_tmpl (v : option string) : truthy v = true → Some (tmpl v) = v.
Proof. by destruct v as [[|c r]|]. Qed.

(** The first two lines of [configureEventGateway] on a valid section. *)
Lemma prologue {B : Type} (k : option positive → M B) (s : state) (l : positive)
    (section : gmap string string) :
  custom s ≫= custom_eventgateway = Some l →
  heap s !! l = Some section →
  truthy (section !! "subdomain") = true →
  truthy (section !! "apikey") = true →
  (config ← getConfig; _ ← getClient; k config) s = k (Some l) (after_getClient s l section).
Proof.
  intros Hl Hs Hd Ha.
  rewrite (bind_Return _ _ _ _ _ (getConfig_present s l Hl)). rewrite Hs. simpl.
  set (s1 := set_heap _ s).
  assert (getClient s1 = (Return {| url := "http://localhost:4000";
                                    configurationUrl := "http://localhost:8080";
                                    space := section !! "subdomain" |},
                          after_getClient s l section)) as Hc.
  { rewrite (getClient_present s1 l (resolved section)); [|done|].
    - rewrite !resolved_other by done. rewrite Hd, Ha. simpl. f_equal.
      unfold after_getClient, s1, set_token, set_heap. simpl.
      rewrite insert_insert_eq, resolved_idemp.
      unfold js_or. rewrite Ha. by rewrite (truthy_tmpl _ Ha).
    - unfold s1. simpl. by rewrite lookup_insert_eq. }
  by rewrite (bind_Return _ _ _ _ _ Hc).
Qed.

Lemma parseOutputs_fold_absent (k : string) (outs : list output) (agg : gmap string string) :
  (∀ o, o ∈ outs → OutputKey o ≠ Some k) →
  agg !! k = None →
  fold_left
    (λ agg current,
       if truthy (OutputKey current) && truthy (OutputValue current)
       then assign (tmpl (OutputKey current)) (tmpl (OutputValue current)) agg
       else agg) outs agg !! k = None.
Proof.
  revert agg. induction outs as [|o r IH]; intros agg Hk Hagg; [done|].
  simpl. apply IH.
  - intros o' Ho'. apply Hk. by right.
  - destruct (truthy (OutputKey o)) eqn:Ek; [|done].
    destruct (truthy (OutputValue o)); [|done]. simpl.
    unfold assign. destruct (bool_decide (tmpl (OutputKey o) = "__proto__")); [done|].
    rewrite lookup_insert_ne; [done|].
    intros Heq. apply (Hk o); [by left|].
    by rewrite <- (truthy_tmpl _ Ek), Heq.
Qed.

(** An output key that no entry of the stack carries is absent from
    [parseOutputs]. *)
Lemma parseOutputs_absent (k : string) (st : stack) :
  (∀ o, o ∈ Outputs st → OutputKey o ≠ Some k) → parseOutputs st !! k = None.
Proof. intros H. unfold parseOutputs. by apply parseOutputs_fold_absent. Qed.

(** C5. On a valid configuration and a stack that was fetched, when the
    stack's outputs carry no [EventGatewayUserAccessKey] or no
    [EventGatewayUserSecretKey] the hook throws the missing-credentials
    error; all it has done by then is print the banner and ask for the
    stack, so it has made no call on the gateway. *)
Theorem missing_credentials_before_gateway (awsProvider : host) (eg : gateway)
    (fns : functions_t) (s : state) (l : positive) (section : gmap string string)
    (stacks : list stack) (st : stack) :
  custom s ≫= custom_eventgateway = Some l →
  heap s !! l = Some section →
  truthy (section !! "subdomain") = true →
  truthy (section !! "apikey") = true →
  describeStacks awsProvider (getStackName awsProvider) (getStage awsProvider)
    (getRegion awsProvider) = inr stacks →
  last stacks = Some st →
  (∀ o, o ∈ Outputs st → OutputKey o ≠ Some "EventGatewayUserAccessKey") ∨
  (∀ o, o ∈ Outputs st → OutputKey o ≠ Some "EventGatewayUserSecretKey") →
  let r := configureEventGateway awsProvider eg fns s in
  r.1 = Throw MissingCredentialsOutput ∧
  trace r.2 = trace s ++ [Log ""; Log "Event Gateway Plugin";
                          DescribeStacks (getStackName awsProvider)] ∧
  List.filter is_call (trace r.2) = List.filter is_call (trace s).
Proof.
  intros Hl Hs Hd Ha Hdesc Hlast Hmiss. simpl.
  unfold configureEventGateway.
  rewrite (prologue _ s l section Hl Hs Hd Ha).
  unfold mbind, M_bind, consoleLog, emit. simpl.
  rewrite Hdesc, Hlast.
  assert (negb (truthy (parseOutputs st !! "EventGatewayUserAccessKey"))
          || negb (truthy (parseOutputs st !! "EventGatewayUserSecretKey")) = true) as ->.
  { destruct Hmiss as [H|H]; rewrite (parseOutputs_absent _ st H); simpl; [done|].
    apply orb_true_r. }
  unfold throw. simpl. rewrite <- !app_assoc. simpl.
  split; [done|]. split; [done|].
  rewrite List.filter_app. simpl. by rewrite app_nil_r.
Qed.

Lemma missing_credentials_before_gateway_witness :
  run (demo_provider outputs_without_secret) (accepting [] [])
      (one_function [gw_trigger (Some "http") (Some "/hello") (Some "GET")])
  = (Throw MissingCredentialsOutput, preamble).
Proof.
  destruct (missing_credentials_before_gateway
              (demo_provider outputs_without_secret) (accepting [] [])
              (one_function [gw_trigger (Some "http") (Some "/hello") (Some "GET")])
              acme 1%positive {[ "subdomain" := "acme"; "apikey" := "k" ]}
              [ {| Outputs := outputs_without_secret |} ]
              {| Outputs := outputs_without_secret |}
              eq_refl eq_refl eq_refl eq_refl eq_refl eq_refl) as (Hthrow & Htrace & _).
  - right. intros o Ho. unfold outputs_without_secret in Ho. simpl in Ho.
    repeat (apply elem_of_cons in Ho as [->|Ho]; [discriminate|]).
    by apply elem_of_nil in Ho.
  - unfold run. cbv zeta. rewrite Hthrow, Htrace. reflexivity.
Defined.

Lemma set_trace_same (s : state) : set_trace (trace s) s = s.
Proof. by destruct s. Qed.

Lemma set_trace_twice (t t' : list obs) (s : state) :
  set_trace t' (set_trace t s) = set_trace t' s.
Proof. done. Qed.

Lemma prop_of_run (l : positive) (k : string) (s : state) :
  prop_of (Some l) k s = (Return (heap s !! l ≫= (.!! k)), s).
Proof. done. Qed.

(** [createSubscription] on a declared gateway event: the request of
    [subscribe_request] is the one call it issues, and it issues none when
    building the request throws. *)
Lemma createSubscription_run (l : positive) (eg : gateway) (functionId : option string)
    (e : gwevent) (s : state) :
  createSubscription (Some l) eg functionId (Some e) s =
  match subscribe_request functionId (heap s !! l ≫= (.!! "subdomain")) e with
  | inl err => (Throw err, s)
  | inr req =>
      (match gw_subscribe eg req with
       | Some err =>
           if truthy_error err then Throw (SubscriptionCreationFailed functionId err)
           else Return ()
       | None => Return ()
       end,
       set_trace (trace s ++ [Call (subscribe req)]) s)
  end.
Proof.
  unfold createSubscription, subscribe_request.
  rewrite (bind_Return _ _ _ _ _ (prop_of_run l "subdomain" s)).
  destruct (bool_decide (event e = Some "http")).
  - destruct (method e) as [m|]; [|done].
    unfold mbind, M_bind, mret, M_ret, to, eg_subscribe, emit, settle. simpl.
    destruct (gw_subscribe eg _) as [err|]; [|done]. simpl. by destruct (truthy_error err).
  - unfold mbind, M_bind, mret, M_ret, to, eg_subscribe, emit, settle. simpl.
    destruct (gw_subscribe eg _) as [err|]; [|done]. simpl. by destruct (truthy_error err).
Qed.

Lemma createSubscription_undefined (config : option positive) (eg : gateway)
    (functionId : option string) (s : state) :
  createSubscription config eg functionId None s = (Throw (TypeError "event.event"), s).
Proof. done. Qed.

Lemma subscribe_new_run (eg : gateway) (l : positive) (name : string)
    (functionId : option string) (ev : trigger) (s : state) :
  detached (subscribe_new eg (Some l) name functionId ev) s =
  (Return (),
   set_trace (trace s ++ subscribe_new_obs functionId (heap s !! l ≫= (.!! "subdomain")) name ev) s).
Proof.
  unfold detached, subscribe_new, subscribe_new_obs.
  destruct (eventgateway ev) as [e|].
  - unfold mbind, M_bind, to. rewrite createSubscription_run.
    destruct (subscribe_request _ _ e) as [err|req]; simpl.
    + done.
    + destruct (gw_subscribe eg req) as [err|]; [destruct (truthy_error err)|]; simpl;
        by rewrite <- app_assoc.
  - unfold mbind, M_bind, to. by rewrite createSubscription_undefined.
Qed.

(** A [forEach] whose callback only appends to the trace appends the
    callbacks' observations in order. *)
Lemma forEach_appends {A : Type} (f : A → M unit) (g : A → list obs)
    (h : gmap positive (gmap string string)) (xs : list A) (s : state) :
  (∀ x s, heap s = h → f x s = (Return (), set_trace (trace s ++ g x) s)) →
  heap s = h →
  forEach f xs s = (Return (), set_trace (trace s ++ mjoin (g <$> xs)) s).
Proof.
  intros Hf. revert s. induction xs as [|x r IH]; intros s Hs; simpl.
  - by rewrite app_nil_r, set_trace_same.
  - rewrite (bind_Return _ _ _ _ _ (Hf x s Hs)). rewrite IH by done.
    simpl. by rewrite set_trace_twice, <- app_assoc.
Qed.

Lemma registerFunction_rejected (eg : gateway) (fn : fn_descriptor) (err : error) (s : state) :
  gw_registerFunction eg fn = Some err →
  registerFunction eg fn s =
  (if truthy_error err then Throw (FunctionRegistrationFailed (fn_functionId fn) err)
   else Return (),
   set_trace (trace s ++ [Call (registerFunction_call fn)]) s).
Proof.
  intros H. unfold registerFunction, mbind, M_bind, to, eg_registerFunction, emit, settle.
  simpl. rewrite H. simpl. by destruct (truthy_error err).
Qed.

Lemma to_registerFunction_run (eg : gateway) (fn : fn_descriptor) (s : state) :
  to (registerFunction eg fn) s =
  (Return match gw_registerFunction eg fn with
          | Some err =>
              if truthy_error err
              then (Some (FunctionRegistrationFailed (fn_functionId fn) err), None)
              else (None, Some ())
          | None => (None, Some ())
          end,
   set_trace (trace s ++ [Call (registerFunction_call fn)]) s).
Proof.
  unfold registerFunction, mbind, M_bind, to, eg_registerFunction, emit, settle.
  simpl. destruct (gw_registerFunction eg fn) as [err|]; [|done].
  simpl. by destruct (truthy_error err).
Qed.

(** The callback of line 142 for a function that is not registered: the
    registration request, the confirmation, then each event's observations,
    whatever the gateway answered to the registration. *)
Lemma reconcile_function_new (awsProvider : host) (eg : gateway) (fns : functions_t)
    (l : positive) (outputs : gmap string string)
    (subscriptions : option (list subscription))
    (name fullArn : string) (evs : list trigger) (known : list regfn) (s : state) :
  outputs !! getLambdaVersionOutputLogicalId awsProvider name = Some fullArn →
  getFunction fns name ≫= events = Some evs →
  functions s = Some known →
  List.find (λ f, bool_decide (Some (f_functionId f) = split ":" fullArn !! 6%nat))
    known = None →
  let fn := descriptor awsProvider outputs fullArn in
  reconcile_function awsProvider eg fns (Some l) outputs subscriptions name s =
  (Return (),
   set_trace
     (trace s ++ Call (registerFunction_call fn)
        :: Log (registered_line name (fn_functionId fn))
        :: mjoin (subscribe_new_obs (fn_functionId fn) (heap s !! l ≫= (.!! "subdomain")) name
                  <$> evs)) s).
Proof.
  intros Hout Hevs Hknown Hfind fn. unfold reconcile_function.
  rewrite Hout, Hevs.
  rewrite (bind_Return (read functions) _ s s (functions s) eq_refl).
  rewrite Hknown, Hfind. fold (descriptor awsProvider outputs fullArn). fold fn.
  rewrite (bind_Return _ _ _ _ _ (to_registerFunction_run eg fn s)).
  unfold consoleLog.
  rewrite (bind_Return (emit _) _ _ _ () eq_refl).
  cbn [trace set_trace]. rewrite set_trace_twice.
  unfold forEach_of.
  rewrite (forEach_appends _
             (subscribe_new_obs (fn_functionId fn) (heap s !! l ≫= (.!! "subdomain")) name)
             (heap s)); [| |done].
  - cbn [trace set_trace]. rewrite !set_trace_twice.
    by rewrite <- !app_assoc.
  - intros ev s' Hs'. rewrite subscribe_new_run. by rewrite Hs'.
Qed.

(** C2, on the code.  When the gateway refuses a registration, the helper
    [registerFunction] does reject with the registration error that names
    the function id; but line 163, its only call, captures the rejection
    and drops it: whatever the gateway answers, the statement of line 163
    returns, and the registration request is all it leaves in the trace.
    On the run against a gateway that refuses every registration the
    function is reported as registered and its event is subscribed all the
    same, and the failure appears nowhere: none of the three things the
    specification says of a refused registration holds. *)
Theorem registration_failure_not_fatal :
  (∀ (eg : gateway) (fn : fn_descriptor) (err : error) (s : state),
      gw_registerFunction eg fn = Some err → truthy_error err = true →
      (registerFunction eg fn s).1
      = Throw (Error ("Couldn't register a function " +:+ tmpl (fn_functionId fn)
                      +:+ ". " +:+ err_text err +:+ "."))) ∧
  (∀ (eg : gateway) (fn : fn_descriptor) (s : state),
      ∃ captured,
        to (registerFunction eg fn) s =
        (Return captured, set_trace (trace s ++ [Call (registerFunction_call fn)]) s)) ∧
  run (demo_provider demo_outputs) rejecting_registration user_created =
    (Return (),
     preamble ++
     [Call listFunctions; Call listSubscriptions;
      Call (registerFunction_call myFunc_descriptor);
      Log ("EventGateway: Function " +:+ dq +:+ "Hello" +:+ dq
           +:+ " registered. (ID: myFunc)");
      Call (subscribe (hello_request (Some "user.created") None));
      Log ("EventGateway: Function " +:+ dq +:+ "Hello" +:+ dq +:+ " subscribed to "
           +:+ dq +:+ "user.created" +:+ dq +:+ " event.")]) ∧
  ¬ registration_failure_is_fatal
      (run (demo_provider demo_outputs) rejecting_registration user_created).2
      "Hello" (Some "myFunc").
Proof.
  split; [|split; [|split]].
  - intros eg fn err s Hrej Htruthy.
    by rewrite (registerFunction_rejected eg fn err s Hrej), Htruthy.
  - intros eg fn s. eexists. apply to_registerFunction_run.
  - vm_compute. reflexivity.
  - intros (_ & Hlog & _). apply Hlog. vm_compute.
    do 6 apply list_elem_of_further. apply list_elem_of_here.
Qed.

(** The method of an [http] request when the event declares one: the
    declared method in upper case, and [GET] when that is empty. *)
Lemma subscribe_request_http_method (functionId subdomain : option string)
    (e : gwevent) (m : string) :
  event e = Some "http" →
  method e = Some m →
  ∃ req, subscribe_request functionId subdomain e = inr req ∧
         sr_method req = Some (if decide (toUpperCase m = "") then "GET" else toUpperCase m).
Proof.
  intros He Hm. unfold subscribe_request. rewrite He, Hm. simpl.
  eexists. split; [reflexivity|]. simpl.
  by destruct (toUpperCase m).
Qed.

(** C3, on the code. For an [http] event with no [method], building the
    request throws before the gateway is called, whatever the store and
    the gateway; on the specification's example the run registers the
    function, logs both confirmations and never calls [subscribe]. *)
Theorem http_without_method_is_not_subscribed :
  (∀ (l : positive) (eg : gateway) (functionId p : option string) (c : option bool)
     (s : state),
      createSubscription (Some l) eg functionId
        (Some {| event := Some "http"; path := p; method := None; cors := c |}) s
      = (Throw (TypeError "event.method.toUpperCase"), s)) ∧
  run (demo_provider demo_outputs) (accepting [] []) http_without_method =
    (Return (),
     preamble ++
     [Call listFunctions; Call listSubscriptions;
      Call (registerFunction_call myFunc_descriptor);
      Log (registered_line "Hello" (Some "myFunc"));
      Log (subscribed_line "Hello" (Some "http"))]) ∧
  List.filter is_subscribe
    (run (demo_provider demo_outputs) (accepting [] []) http_without_method).2 = [].
Proof.
  split; [|split; vm_compute; reflexivity].
  intros l eg functionId p c s. by rewrite createSubscription_run.
Qed.

(** C4, on the code. A trigger of another kind gets no [subscribe] call and
    no confirmation, but it is not skipped: its callback dereferences the
    missing [eventgateway] section and rejects with a [TypeError], for a
    function that is new to the gateway and for one that is already
    registered; the two runs show it next to a gateway event. *)
Theorem other_trigger_rejects :
  (∀ (eg : gateway) (l : positive) (name : string) (functionId : option string)
     (s : state),
      detached (subscribe_new eg (Some l) name functionId other_trigger) s =
      (Return (),
       set_trace (trace s ++ [Unhandled (TypeError "event.eventgateway.event")]) s)) ∧
  (∀ (eg : gateway) (l : positive) (name : string) (functionId : option string)
     (s : state),
      detached (reconcile_event eg (Some l) name functionId other_trigger) s =
      (Return (), set_trace (trace s ++ [Unhandled (TypeError "event.event")]) s)) ∧
  run (demo_provider demo_outputs) (accepting [] []) user_created_and_schedule =
    (Return (),
     preamble ++
     [Call listFunctions; Call listSubscriptions;
      Call (registerFunction_call myFunc_descriptor);
      Log (registered_line "Hello" (Some "myFunc"));
      Call (subscribe (hello_request (Some "user.created") None));
      Log (subscribed_line "Hello" (Some "user.created"));
      Unhandled (TypeError "event.eventgateway.event")]) ∧
  run (demo_provider demo_outputs)
      (accepting [ {| f_functionId := "myFunc" |} ]
                 [stored "sub-1" (hello_request (Some "user.created") None)])
      user_created_and_schedule =
    (Return (),
     preamble ++
     [Call listFunctions; Call listSubscriptions;
      Unhandled (TypeError "event.event")]).
Proof.
  split; [|split; [|split; vm_compute; reflexivity]].
  - intros eg l name functionId s. by rewrite subscribe_new_run.
  - intros eg l name functionId s. unfold other_trigger, detached, reconcile_event.
    cbn [eventgateway].
    rewrite (bind_Return (read createdSubscriptions) _ s s (createdSubscriptions s) eq_refl).
    by destruct (createdSubscriptions s).
Qed.

(** C1, on the code. An [http] event that declares its method in lower case:
    the first run registers the function and subscribes it with the method
    in upper case; on the second run, against a gateway that holds exactly
    that function and that subscription, the lower-case declaration does
    not match the stored upper-case method, so the engine subscribes again
    and removes the subscription it had made. *)
Theorem second_run_is_not_quiet :
  List.filter changes_gateway
    (run (demo_provider demo_outputs) (accepting [] []) http_get).2 =
    [Call (registerFunction_call myFunc_descriptor);
     Call (subscribe (hello_request (Some "http") (Some "GET")))] ∧
  List.filter changes_gateway
    (run (demo_provider demo_outputs)
         (accepting [ {| f_functionId := "myFunc" |} ]
                    [stored "sub-1" (hello_request (Some "http") (Some "GET"))])
         http_get).2 =
    [Call (subscribe (hello_request (Some "http") (Some "GET")));
     Call (unsubscribe "sub-1")].
Proof. split; vm_compute; reflexivity. Qed.

(** *** A gateway that already matches the declarations stays as it is *)

Lemma findM_pure {A : Type} (p : A → M bool) (q : A → bool) (xs : list A) (s : state) :
  (∀ x, p x s = (Return (q x), s)) →
  findM p xs s = (Return (List.find q xs), s).
Proof.
  intros Hp. induction xs as [|x r IH]; [done|]. simpl.
  rewrite (bind_Return _ _ _ _ _ (Hp x)). by destruct (q x).
Qed.

Lemma same_subscription_run (l : positive) (e : gwevent) (sub : subscription) (s : state) :
  same_subscription (Some l) (Some e) sub s =
  (Return (matchb (heap s !! l ≫= (.!! "subdomain")) e sub), s).
Proof.
  unfold same_subscription, matchb.
  destruct (loose_eq (Some (s_event sub)) (event e)); [|done].
  destruct (loose_eq (s_method sub) (method e)); [|done].
  done.
Qed.

Lemma matchb_shown (subdomain : option string) (e : gwevent) (s : subscription) :
  matchb subdomain e s = true ↔ shown s = wanted subdomain e.
Proof.
  unfold matchb, loose_eq, shown, wanted.
  rewrite !andb_true_iff, !bool_decide_eq_true. split.
  - by intros [[-> ->] ->].
  - intros [= -> -> ->]. done.
Qed.

(** A declared gateway event that finds its subscription: the subscription
    leaves the working list, and nothing is said or sent. *)
Lemma reconcile_event_found (eg : gateway) (l : positive) (name : string)
    (functionId : option string) (e : gwevent) (c : subscription) (s : state) :
  List.find (matchb (heap s !! l ≫= (.!! "subdomain")) e) (createdSubscriptions s) = Some c →
  detached (reconcile_event eg (Some l) name functionId {| eventgateway := Some e |}) s =
  (Return (),
   set_createdSubscriptions
     (filter (λ x, subscriptionId x ≠ subscriptionId c) (createdSubscriptions s)) s).
Proof.
  intros Hfind. unfold detached, reconcile_event. cbn [eventgateway].
  rewrite (bind_Return (read createdSubscriptions) _ s s (createdSubscriptions s) eq_refl).
  rewrite (bind_Return _ _ _ _ _
             (findM_pure _ _ _ s (λ x, same_subscription_run l e x s))).
  rewrite Hfind.
  by rewrite (bind_Return (read createdSubscriptions) _ s s (createdSubscriptions s) eq_refl).
Qed.

(** A trigger of another kind on a registered function: the callback
    rejects, and nothing is sent. *)
Lemma reconcile_event_other (eg : gateway) (l : positive) (name : string)
    (functionId : option string) (s : state) :
  detached (reconcile_event eg (Some l) name functionId {| eventgateway := None |}) s =
  (Return (), set_trace (trace s ++ [Unhandled (TypeError "event.event")]) s).
Proof.
  unfold detached, reconcile_event. cbn [eventgateway].
  rewrite (bind_Return (read createdSubscriptions) _ s s (createdSubscriptions s) eq_refl).
  destruct (createdSubscriptions s) as [|c r]; done.
Qed.

Lemma filter_all {A : Type} (P : A → Prop) `{∀ x, Decision (P x)} (xs : list A) :
  (∀ x, x ∈ xs → P x) → filter P xs = xs.
Proof.
  induction xs as [|x r IH]; intros Hall; [done|].
  rewrite filter_cons_True by (apply Hall; left).
  f_equal. apply IH. intros y Hy. apply Hall. by right.
Qed.

(** Removing by key from a list whose keys are distinct removes exactly
    the element that was found. *)
Lemma remove_by_key {A B : Type} `{EqDecision B} (g : A → B) (c : A) (W : list A) :
  NoDup (g <$> W) →
  c ∈ W →
  W ≡ₚ c :: filter (λ x, g x ≠ g c) W.
Proof.
  induction W as [|x r IH]; intros Hnd Hin; [by apply elem_of_nil in Hin|].
  simpl in Hnd. apply NoDup_cons in Hnd as [Hx Hnd].
  apply elem_of_cons in Hin as [->|Hin].
  - rewrite filter_cons_False by (intros H; by apply H).
    rewrite filter_all; [done|]. intros y Hy Heq.
    apply Hx. rewrite <- Heq. apply list_elem_of_fmap. by exists y.
  - assert (g x ≠ g c) as Hne.
    { intros Heq. apply Hx. rewrite Heq. apply list_elem_of_fmap. by exists c. }
    rewrite filter_cons_True by done.
    rewrite (IH Hnd Hin) at 1. apply Permutation_swap.
Qed.

Lemma remove_by_id (c : subscription) (W : list subscription) :
  NoDup (subscriptionId <$> W) →
  c ∈ W →
  W ≡ₚ c :: filter (λ x, subscriptionId x ≠ subscriptionId c) W.
Proof. apply (remove_by_key subscriptionId). Qed.

Lemma reconcile_event_obs_quiet (evs : list trigger) :
  List.filter changes_gateway (mjoin (reconcile_event_obs <$> evs)) = [].
Proof.
  induction evs as [|[[e|]] r IH]; simpl; [done| |]; exact IH.
Qed.

(** The loop of lines 176-190 when the working list is, up to order, what
    the declared gateway events ask for: every event finds a subscription
    and takes it off the list, so the list ends empty. *)
Lemma reconcile_events_matching (eg : gateway) (l : positive) (name : string)
    (functionId : option string) (evs : list trigger) (s : state) :
  NoDup (subscriptionId <$> createdSubscriptions s) →
  shown <$> createdSubscriptions s
    ≡ₚ wanted (heap s !! l ≫= (.!! "subdomain")) <$> gateway_events evs →
  forEach (λ ev, detached (reconcile_event eg (Some l) name functionId ev)) evs s =
  (Return (),
   set_createdSubscriptions []
     (set_trace (trace s ++ mjoin (reconcile_event_obs <$> evs)) s)).
Proof.
  revert s. induction evs as [|[[e|]] r IH]; intros s Hnd Hperm.
  - simpl in Hperm. apply Permutation_nil_r in Hperm.
    apply fmap_nil_inv in Hperm. destruct s. simpl in *. subst.
    by rewrite app_nil_r.
  - cbn [forEach].
    change (gateway_events ({| eventgateway := Some e |} :: r))
      with (e :: gateway_events r) in Hperm.
    rewrite fmap_cons in Hperm.
    set (sd := heap s !! l ≫= (.!! "subdomain")) in *.
    destruct (List.find (matchb sd e) (createdSubscriptions s)) as [c|] eqn:Efind.
    + pose proof (find_some _ _ Efind) as [Hin%list_elem_of_In Hc].
      apply matchb_shown in Hc.
      pose proof (remove_by_id c _ Hnd Hin) as Hrm.
      rewrite (bind_Return _ _ _ _ _
                 (reconcile_event_found eg l name functionId e c s Efind)).
      rewrite IH.
      * done.
      * cbn [createdSubscriptions set_createdSubscriptions].
        apply (fmap_Permutation subscriptionId) in Hrm. rewrite Hrm in Hnd.
        rewrite fmap_cons in Hnd. by apply NoDup_cons in Hnd as [_ Hnd].
      * cbn [createdSubscriptions set_createdSubscriptions heap].
        apply (fmap_Permutation shown) in Hrm. rewrite fmap_cons, Hc in Hrm.
        rewrite Hrm in Hperm. by apply Permutation_cons_inv in Hperm.
    + exfalso.
      assert (wanted sd e ∈ shown <$> createdSubscriptions s) as Hin.
      { rewrite Hperm. left. }
      apply list_elem_of_fmap in Hin as (c & Hc & Hin).
      apply list_elem_of_In in Hin.
      pose proof (find_none _ _ Efind c Hin) as Hno.
      symmetry in Hc. apply matchb_shown in Hc. by rewrite Hc in Hno.
  - cbn [forEach].
    rewrite (bind_Return _ _ _ _ _ (reconcile_event_other eg l name functionId s)).
    rewrite IH; [| done | done].
    cbn [trace set_trace fmap list_fmap mjoin list_join reconcile_event_obs eventgateway].
    by rewrite <- app_assoc.
Qed.

(** The callback of line 142 for a function the gateway knows, when the
    gateway's subscriptions match the function's declared gateway events:
    the function leaves the working set and nothing is sent. *)
Lemma reconcile_function_matching (awsProvider : host) (eg : gateway) (fns : functions_t)
    (l : positive) (outputs : gmap string string) (subscriptions : list subscription)
    (name f : string) (known : list regfn) (s : state) :
  functionId_of awsProvider outputs name = Some f →
  functions s = Some known →
  (∃ x, x ∈ known ∧ f_functionId x = f) →
  subscriptions_match awsProvider fns outputs (heap s !! l ≫= (.!! "subdomain"))
    subscriptions name →
  ∃ t,
    reconcile_function awsProvider eg fns (Some l) outputs (Some subscriptions) name s =
    (Return (),
     set_createdSubscriptions []
       (set_functions (Some (filter (λ x, Some (f_functionId x) ≠ Some f) known))
          (set_trace (trace s ++ t) s))) ∧
    List.filter changes_gateway t = [].
Proof.
  intros Hfid Hknown (x & Hx & Hxf) (evs & Hevs & Hnd & Hperm).
  rewrite Hfid in Hnd, Hperm. unfold functionId_of in Hfid.
  destruct (outputs !! getLambdaVersionOutputLogicalId awsProvider name)
    as [fullArn|] eqn:Hout; [|done].
  simpl in Hfid.
  exists (mjoin (reconcile_event_obs <$> evs)).
  split; [|apply reconcile_event_obs_quiet].
  unfold reconcile_function. rewrite Hout, Hevs, Hfid.
  rewrite (bind_Return (read functions) _ s s (functions s) eq_refl).
  rewrite Hknown.
  destruct (List.find (λ y, bool_decide (Some (f_functionId y) = Some f)) known)
    as [registered|] eqn:Efind.
  - rewrite (bind_Return (write _) _ s _ () eq_refl).
    rewrite (bind_Return (write _) _ _ _ () eq_refl).
    unfold forEach_of.
    pose (s2 := set_createdSubscriptions
                  (filter (λ y, Some (s_functionId y) = Some f) subscriptions)
                  (set_functions
                     (Some (filter (λ y, Some (f_functionId y) ≠ Some f) known)) s)).
    rewrite (bind_Return _ _ _ _ _
               (reconcile_events_matching eg l name (Some f) evs s2 Hnd Hperm)).
    reflexivity.
  - exfalso. apply list_elem_of_In in Hx.
    pose proof (find_none _ _ Efind x Hx) as Hno. simpl in Hno.
    rewrite Hxf in Hno. by rewrite bool_decide_eq_true_2 in Hno.
Qed.

(** The loop of line 142 over the qualifying functions when the gateway
    knows exactly their function ids and its subscriptions match each of
    them: the working set of functions ends empty and nothing is sent. *)
Lemma reconcile_all_matching (awsProvider : host) (eg : gateway) (fns : functions_t)
    (l : positive) (outputs : gmap string string) (subscriptions : list subscription)
    (names : list string) (known : list regfn) (s : state) :
  functions s = Some known →
  NoDup (functionId_of awsProvider outputs <$> names) →
  (Some ∘ f_functionId) <$> known ≡ₚ functionId_of awsProvider outputs <$> names →
  (∀ name, name ∈ names →
     subscriptions_match awsProvider fns outputs (heap s !! l ≫= (.!! "subdomain"))
       subscriptions name) →
  ∃ t W,
    forEach (λ name, detached
                       (reconcile_function awsProvider eg fns (Some l) outputs
                          (Some subscriptions) name)) names s =
    (Return (),
     set_createdSubscriptions W (set_functions (Some []) (set_trace (trace s ++ t) s))) ∧
    List.filter changes_gateway t = [].
Proof.
  revert known s. induction names as [|name r IH]; intros known s Hknown Hnd Hperm Hall.
  - simpl in Hperm. apply Permutation_nil_r, fmap_nil_inv in Hperm.
    exists [], (createdSubscriptions s). split; [|done].
    destruct s. simpl in *. subst. by rewrite app_nil_r.
  - rewrite fmap_cons in Hnd, Hperm.
    assert (functionId_of awsProvider outputs name ∈ (Some ∘ f_functionId) <$> known)
      as Hin by (rewrite Hperm; left).
    apply list_elem_of_fmap in Hin as (x & Hxf & Hx). simpl in Hxf.
    destruct (reconcile_function_matching awsProvider eg fns l outputs subscriptions
                name (f_functionId x) known s Hxf Hknown) as (t1 & Hrun & Hq1).
    { by exists x. }
    { apply Hall. left. }
    assert (NoDup ((Some ∘ f_functionId) <$> known)) as Hids
      by (by rewrite Hperm).
    pose proof (remove_by_key (Some ∘ f_functionId) x _ Hids Hx) as Hrm.
    set (s1 := set_createdSubscriptions []
                 (set_functions
                    (Some (filter (λ y, Some (f_functionId y) ≠ Some (f_functionId x)) known))
                    (set_trace (trace s ++ t1) s))) in *.
    destruct (IH (filter (λ y, Some (f_functionId y) ≠ Some (f_functionId x)) known) s1)
      as (t2 & W & Hrest & Hq2).
    + done.
    + by apply NoDup_cons in Hnd as [_ Hnd].
    + apply (fmap_Permutation (Some ∘ f_functionId)) in Hrm.
      rewrite fmap_cons in Hrm. rewrite Hrm in Hperm. simpl in Hperm.
      rewrite Hxf in Hperm. by apply Permutation_cons_inv in Hperm.
    + intros n Hn. apply Hall. by right.
    + exists (t1 ++ t2), W. split.
      * cbn [forEach].
        rewrite (bind_Return _ _ _ _ _ (detached_Return _ _ _ Hrun)).
        rewrite Hrest. unfold s1. cbn [trace set_trace set_createdSubscriptions set_functions].
        by rewrite <- app_assoc.
      * rewrite List.filter_app, Hq1, Hq2. done.
Qed.

Lemma to_listFunctions_run (eg : gateway) (fs : list regfn) (s : state) :
  gw_listFunctions eg = inr fs →
  to (eg_listFunctions eg) s =
  (Return (None, Some fs), set_trace (trace s ++ [Call listFunctions]) s).
Proof.
  intros H. unfold to, eg_listFunctions, mbind, M_bind, emit. simpl. by rewrite H.
Qed.

Lemma to_listSubscriptions_run (eg : gateway) (ss : list subscription) (s : state) :
  gw_listSubscriptions eg = inr ss →
  to (eg_listSubscriptions eg) s =
  (Return (None, Some ss), set_trace (trace s ++ [Call listSubscriptions]) s).
Proof.
  intros H. unfold to, eg_listSubscriptions, mbind, M_bind, emit. simpl. by rewrite H.
Qed.

(** Whether the subscription a gateway stored for a request matches the
    event the request was built from comes down to the method: the request
    carries the method in upper case (or none), the comparison of line 180
    uses the method as declared. *)
Lemma stored_matches_iff (functionId subdomain : option string) (e : gwevent)
    (req : subscribe_req) (id : string) :
  is_Some (event e) →
  subscribe_request functionId subdomain e = inr req →
  shown (stored id req) = wanted subdomain e ↔ sr_method req = method e.
Proof.
  intros [x Hx] Hreq. unfold subscribe_request in Hreq.
  unfold shown, wanted, stored.
  destruct (bool_decide (event e = Some "http")).
  - destruct (method e) as [m|] eqn:Hm; [|done].
    injection Hreq as <-. simpl. rewrite Hx. simpl. split.
    + by intros [= ->].
    + by intros ->.
  - injection Hreq as <-. simpl. rewrite Hx. simpl. split.
    + by intros [= <-].
    + by intros <-.
Qed.

(** Idempotence on a matching gateway.  On a valid configuration and a stack
    with the credentials, when the gateway lists exactly the function ids
    of the qualifying functions (all distinct) and, for each of them,
    subscriptions that are up to order what its declared gateway events ask
    for, the hook returns normally and issues no [registerFunction],
    [subscribe], [unsubscribe] or [deleteFunction] call. *)
Theorem quiet_on_matching_gateway (awsProvider : host) (eg : gateway) (fns : functions_t)
    (s : state) (l : positive) (section : gmap string string)
    (stacks : list stack) (st : stack) (fs : list regfn) (ss : list subscription) :
  custom s ≫= custom_eventgateway = Some l →
  heap s !! l = Some section →
  truthy (section !! "subdomain") = true →
  truthy (section !! "apikey") = true →
  describeStacks awsProvider (getStackName awsProvider) (getStage awsProvider)
    (getRegion awsProvider) = inr stacks →
  last stacks = Some st →
  truthy (parseOutputs st !! "EventGatewayUserAccessKey") = true →
  truthy (parseOutputs st !! "EventGatewayUserSecretKey") = true →
  gw_listFunctions eg = inr fs →
  gw_listSubscriptions eg = inr ss →
  NoDup (functionId_of awsProvider (parseOutputs st) <$> filterFunctionsWithEvents fns) →
  (Some ∘ f_functionId) <$> fs
    ≡ₚ functionId_of awsProvider (parseOutputs st) <$> filterFunctionsWithEvents fns →
  (∀ name, name ∈ filterFunctionsWithEvents fns →
     subscriptions_match awsProvider fns (parseOutputs st) (section !! "subdomain") ss name) →
  let r := configureEventGateway awsProvider eg fns s in
  r.1 = Return () ∧
  List.filter changes_gateway (trace r.2) = List.filter changes_gateway (trace s).
Proof.
  intros Hl Hs Hd Ha Hdesc Hlast Hak Hsk Hfs Hss Hnd Hperm Hall. cbv zeta.
  unfold configureEventGateway.
  rewrite (prologue _ s l section Hl Hs Hd Ha).
  set (s0 := after_getClient s l section).
  unfold consoleLog.
  rewrite (bind_Return (emit _) _ s0 _ () eq_refl).
  rewrite (bind_Return (emit _) _ _ _ () eq_refl).
  rewrite (bind_Return (emit _) _ _ _ () eq_refl).
  rewrite Hdesc, Hlast, Hak, Hsk. cbn [negb orb].
  rewrite (bind_Return (write _) _ _ _ () eq_refl).
  rewrite (bind_Return _ _ _ _ _ (to_listFunctions_run eg fs _ Hfs)).
  cbn [fst snd truthy_err negb].
  rewrite (bind_Return (write _) _ _ _ () eq_refl).
  rewrite (bind_Return _ _ _ _ _ (to_listSubscriptions_run eg ss _ Hss)).
  cbn [fst snd truthy_err negb].
  match goal with
  | |- context [(_ ≫= _) ?s1] =>
      destruct (reconcile_all_matching awsProvider eg fns l (parseOutputs st) ss
                  (filterFunctionsWithEvents fns) fs s1) as (t & W & Hrun & Hq)
  end.
  - done.
  - exact Hnd.
  - exact Hperm.
  - intros name Hname. simpl. rewrite lookup_insert_eq. simpl.
    rewrite resolved_other by done. by apply Hall.
  - rewrite (bind_Return _ _ _ _ _ Hrun).
    split; [reflexivity|]. simpl.
    rewrite <- !app_assoc. rewrite !List.filter_app, Hq. simpl.
    by rewrite app_nil_r.
Qed.

Lemma quiet_on_matching_gateway_witness :
  List.filter changes_gateway
    (run (demo_provider demo_outputs)
         (accepting [ {| f_functionId := "myFunc" |} ]
                    [stored "sub-1" (hello_request (Some "http") (Some "GET"))])
         http_GET).2 = [].
Proof.
  destruct (quiet_on_matching_gateway
              (demo_provider demo_outputs)
              (accepting [ {| f_functionId := "myFunc" |} ]
                         [stored "sub-1" (hello_request (Some "http") (Some "GET"))])
              http_GET acme 1%positive {[ "subdomain" := "acme"; "apikey" := "k" ]}
              [ {| Outputs := demo_outputs |} ] {| Outputs := demo_outputs |}
              [ {| f_functionId := "myFunc" |} ]
              [stored "sub-1" (hello_request (Some "http") (Some "GET"))]
              eq_refl eq_refl eq_refl eq_refl eq_refl eq_refl eq_refl eq_refl
              eq_refl eq_refl) as [_ Hq].
  - vm_compute. apply NoDup_singleton.
  - vm_compute. reflexivity.
  - intros name Hname. vm_compute in Hname.
    apply list_elem_of_singleton in Hname. subst name.
    exists [gw_trigger (Some "http") (Some "/hello") (Some "GET")].
    split; [reflexivity|]. split.
    + vm_compute. apply NoDup_singleton.
    + vm_compute. reflexivity.
  - exact Hq.
Defined.

(** * Further properties of the code *)

(** ** [parseOutputs] *)

Lemma parseOutputs_fold_last (k : string) (outs : list output) (agg : gmap string string) :
  k ≠ "__proto__" →
  fold_left
    (λ agg current,
       if truthy (OutputKey current) && truthy (OutputValue current)
       then assign (tmpl (OutputKey current)) (tmpl (OutputValue current)) agg
       else agg) outs agg !! k
  = match last (filter (λ o, kept o ∧ OutputKey o = Some k) outs) with
    | Some o => OutputValue o
    | None => agg !! k
    end.
Proof.
  intros Hproto. revert agg. induction outs as [|o r IH]; intros agg; [done|].
  cbn [fold_left]. rewrite IH.
  destruct (decide (kept o ∧ OutputKey o = Some k)) as [[[Hk Hv] Hkey]|Hno].
  - rewrite filter_cons_True by done. rewrite last_cons.
    destruct (last (filter _ r)); [done|].
    rewrite Hk, Hv. simpl. rewrite Hkey. simpl.
    unfold assign. rewrite bool_decide_eq_false_2 by done.
    rewrite lookup_insert_eq. by apply truthy_tmpl.
  - rewrite filter_cons_False by done.
    destruct (last (filter _ r)); [done|].
    destruct (truthy (OutputKey o)) eqn:Hk; [|done].
    destruct (truthy (OutputValue o)) eqn:Hv; [|done]. simpl.
    unfold assign. destruct (bool_decide (tmpl (OutputKey o) = "__proto__")); [done|].
    rewrite lookup_insert_ne; [done|].
    intros Heq. apply Hno. split; [done|].
    by rewrite <- (truthy_tmpl _ Hk), Heq.
Qed.

Lemma parseOutputs_fold_proto (outs : list output) (agg : gmap string string) :
  agg !! "__proto__" = None →
  fold_left
    (λ agg current,
       if truthy (OutputKey current) && truthy (OutputValue current)
       then assign (tmpl (OutputKey current)) (tmpl (OutputValue current)) agg
       else agg) outs agg !! "__proto__" = None.
Proof.
  revert agg. induction outs as [|o r IH]; intros agg Hagg; [done|].
  cbn [fold_left]. apply IH.
  destruct (truthy (OutputKey o) && truthy (OutputValue o)); [|done].
  unfold assign. destruct (bool_decide (tmpl (OutputKey o) = "__proto__")) eqn:E; [done|].
  apply bool_decide_eq_false_1 in E. by rewrite lookup_insert_ne.
Qed.

(** For a key that is not a property name of [Object.prototype], the object
    [parseOutputs] returns holds the value of the last entry of the stack's
    output list that has this key and is kept; entries without a key or
    without a value (or with an empty one) are dropped, so what it holds is
    a non-empty value under a non-empty key, and a truthiness test on the
    read is a test of presence.  Under [__proto__] the object gets no
    property of its own, whatever the stack lists. *)
Theorem parseOutputs_last_kept_wins (st : stack) (k : string) :
  k ∉ Object_prototype →
  parseOutputs st !! k
    = last (filter (λ o, kept o ∧ OutputKey o = Some k) (Outputs st)) ≫= OutputValue ∧
  (∀ v, parseOutputs st !! k = Some v → k ≠ "" ∧ v ≠ "") ∧
  truthy (parseOutputs st !! k) = bool_decide (is_Some (parseOutputs st !! k)) ∧
  parseOutputs st !! "__proto__" = None.
Proof.
  intros Hk.
  assert (k ≠ "__proto__") as Hproto.
  { intros ->. apply Hk. unfold Object_prototype. set_solver. }
  assert (parseOutputs st !! k
          = last (filter (λ o, kept o ∧ OutputKey o = Some k) (Outputs st)) ≫= OutputValue)
    as Heq.
  { unfold parseOutputs. rewrite parseOutputs_fold_last by done.
    by destruct (last _). }
  assert (∀ v, parseOutputs st !! k = Some v → k ≠ "" ∧ v ≠ "") as Hne.
  { intros v. rewrite Heq.
    destruct (last _) as [o|] eqn:Hlast; [|done]. simpl. intros Hv.
    apply last_Some_elem_of, list_elem_of_filter in Hlast as [[[Hkey Hval] Hkk] _].
    rewrite Hkk in Hkey. rewrite Hv in Hval.
    split; intros ->; discriminate. }
  split; [exact Heq|]. split; [exact Hne|]. split.
  - destruct (parseOutputs st !! k) as [v|] eqn:E.
    + destruct (Hne v eq_refl) as [_ Hv].
      rewrite bool_decide_eq_true_2 by eauto. by destruct v.
    + rewrite bool_decide_eq_false_2; [done|]. by intros [? ?].
  - unfold parseOutputs. by apply parseOutputs_fold_proto.
Qed.

Lemma parseOutputs_last_kept_wins_witness :
  parseOutputs repeated_outputs !! "Arn" = Some "second" ∧
  parseOutputs repeated_outputs !! "__proto__" = None.
Proof.
  destruct (parseOutputs_last_kept_wins repeated_outputs "Arn") as (Heq & _ & _ & Hproto).
  - unfold Object_prototype. intros Hin.
    repeat (apply elem_of_cons in Hin as [Hin|Hin]; [discriminate Hin|]).
    by apply elem_of_nil in Hin.
  - split; [|exact Hproto]. rewrite Heq. reflexivity.
Defined.

(** ** [filterFunctionsWithEvents] *)

Lemma filter_sublist {A : Type} (f : A → bool) (xs : list A) : sublist (List.filter f xs) xs.
Proof.
  induction xs as [|x r IH]; simpl; [constructor|].
  destruct (f x); by constructor.
Qed.

(** [filterFunctionsWithEvents] returns the declared function names in
    declaration order, keeping exactly those whose function has an [events]
    list with at least one entry that carries an [eventgateway] section. *)
Theorem filterFunctionsWithEvents_keeps_gateway_functions (fns : functions_t) :
  sublist (filterFunctionsWithEvents fns) (getAllFunctions fns) ∧
  ∀ name,
    name ∈ filterFunctionsWithEvents fns ↔
    name ∈ getAllFunctions fns ∧
    ∃ evs ev, getFunction fns name ≫= events = Some evs ∧
              ev ∈ evs ∧ is_Some (eventgateway ev).
Proof.
  rewrite filterFunctionsWithEvents_qualifies. split; [apply filter_sublist|].
  intros name. rewrite list_elem_of_In, filter_In, <- list_elem_of_In.
  unfold qualifies. split.
  - intros [Hin Hq]. split; [done|].
    destruct (getFunction fns name ≫= events) as [evs|]; [|done].
    apply existsb_exists in Hq as (ev & Hev & Hgw).
    exists evs, ev. split; [done|]. split; [by apply list_elem_of_In|].
    unfold has_eventgateway in Hgw. by destruct (eventgateway ev).
  - intros [Hin (evs & ev & Hevs & Hev & [e He])]. split; [done|].
    rewrite Hevs. apply existsb_exists. exists ev.
    split; [by apply list_elem_of_In|]. unfold has_eventgateway. by rewrite He.
Qed.

(** ** [getClient] on an existing section *)

(** With a section present, [getClient] checks [subdomain] first and
    [apikey] second, and otherwise returns a client bound to the two fixed
    loopback endpoints with the subdomain as its space; it prints nothing,
    and with no usable [apikey] a token that was already set stays. *)
Theorem getClient_checks_in_order (s : state) (l : positive) (section : gmap string string) :
  custom s ≫= custom_eventgateway = Some l →
  heap s !! l = Some section →
  (truthy (section !! "subdomain") = false →
   (getClient s).1 = Throw (MissingField "subdomain")) ∧
  (truthy (section !! "subdomain") = true → truthy (section !! "apikey") = false →
   (getClient s).1 = Throw (MissingField "apikey")) ∧
  (truthy (section !! "subdomain") = true → truthy (section !! "apikey") = true →
   (getClient s).1 = Return {| url := "http://localhost:4000";
                               configurationUrl := "http://localhost:8080";
                               space := section !! "subdomain" |}) ∧
  (truthy (section !! "apikey") = false →
   ∀ t, EVENT_GATEWAY_TOKEN s = Some t → EVENT_GATEWAY_TOKEN (getClient s).2 = Some t) ∧
  trace (getClient s).2 = trace s.
Proof.
  intros Hl Hs. rewrite (getClient_present s l section Hl Hs). cbn [fst snd].
  repeat split.
  - by intros ->.
  - by intros -> ->.
  - by intros -> ->.
  - intros Ha t Ht. unfold js_or. rewrite Ha, Ht. done.
Qed.

Lemma getClient_checks_in_order_witness :
  (getClient no_apikey).1 = Throw (MissingField "apikey") ∧
  EVENT_GATEWAY_TOKEN (getClient no_apikey).2 = Some "old" ∧
  (getClient no_subdomain).1 = Throw (MissingField "subdomain") ∧
  (getClient acme).1 = Return {| url := "http://localhost:4000";
                                 configurationUrl := "http://localhost:8080";
                                 space := Some "acme" |}.
Proof.
  destruct (getClient_checks_in_order no_apikey 1%positive {[ "subdomain" := "acme" ]}
              eq_refl eq_refl) as (_ & Hkey & _ & Htok & _).
  destruct (getClient_checks_in_order no_subdomain 1%positive {[ "apikey" := "k" ]}
              eq_refl eq_refl) as (Hsub & _).
  destruct (getClient_checks_in_order acme 1%positive
              {[ "subdomain" := "acme"; "apikey" := "k" ]} eq_refl eq_refl)
    as (_ & _ & Hok & _).
  split; [exact (Hkey eq_refl eq_refl)|].
  split; [exact (Htok eq_refl "old" eq_refl)|].
  split; [exact (Hsub eq_refl)|].
  exact (Hok eq_refl eq_refl).
Defined.

(** ** [eventPath] *)

Lemma append_length (a b : string) :
  String.length (a +:+ b) = (String.length a + String.length b)%nat.
Proof. induction a as [|c r IH]; simpl; [done|]. by rewrite IH. Qed.

(** An absent path, an empty path and the path [/] give the same route; what
    follows the subdomain always starts with a slash; and a declared path
    gives the same route as that path with a slash put in front exactly
    when it has no leading slash of its own (a second slash is kept). *)
Theorem eventPath_leading_slash (subdomain : option string) :
  eventPath (with_path None) subdomain = "/" +:+ tmpl subdomain +:+ "/" ∧
  eventPath (with_path (Some "")) subdomain = eventPath (with_path None) subdomain ∧
  eventPath (with_path (Some "/")) subdomain = eventPath (with_path None) subdomain ∧
  (∀ e, ∃ rest, eventPath e subdomain = "/" +:+ tmpl subdomain +:+ "/" +:+ rest) ∧
  (∀ p, eventPath (with_path (Some ("/" +:+ p))) subdomain
        = eventPath (with_path (Some p)) subdomain
        ↔ startsWith p "/" = false).
Proof.
  split; [done|]. split; [done|]. split; [done|]. split.
  - intros e. unfold eventPath. rewrite js_or_path_default.
    destruct (path e) as [[|c r]|]; simpl; try by exists "".
    destruct (bool_decide (c = "/"%char)) eqn:E; simpl.
    + apply bool_decide_eq_true_1 in E. subst c. by exists r.
    + by exists (String c r).
  - intros p. unfold eventPath, with_path. cbn [path]. rewrite !js_or_path_default.
    destruct p as [|c r]; simpl; [done|].
    destruct (bool_decide (c = "/"%char)) eqn:E; simpl; [|done].
    split; [|done]. intros Heq.
    apply (f_equal String.length) in Heq. simpl in Heq.
    rewrite !append_length in Heq. simpl in Heq. lia.
Qed.

(** ** [createSubscription] *)

Lemma upper_ascii_idemp (c : ascii) : upper_ascii (upper_ascii c) = upper_ascii c.
Proof. destruct c as [[] [] [] [] [] [] [] []]; reflexivity. Qed.

Lemma toUpperCase_idemp (s : string) : toUpperCase (toUpperCase s) = toUpperCase s.
Proof.
  induction s as [|c r IH]; simpl; [done|]. by rewrite upper_ascii_idemp, IH.
Qed.

(** [createSubscription] on a declared gateway event either throws before
    it reaches the gateway (an [http] event with no method) and sends
    nothing, or sends exactly one [subscribe] request.  The request passes
    the function id, the event type and [cors] through and carries the
    computed path; it has no method unless the event is [http], whatever
    the event declares, and for [http] a method that is non-empty and
    already in upper case.  The call throws the subscription error naming
    the function id when the gateway rejects with a truthy reason; it
    returns when the gateway accepts, and also when it rejects with an
    empty reason, which the test of line 339 takes for no error. *)
Theorem createSubscription_sends_one_request (l : positive) (eg : gateway)
    (functionId : option string) (e : gwevent) (s : state) :
  let r := createSubscription (Some l) eg functionId (Some e) s in
  (event e = Some "http" ∧ method e = None ∧
   r = (Throw (TypeError "event.method.toUpperCase"), s)) ∨
  (∃ req,
      r.2 = set_trace (trace s ++ [Call (subscribe req)]) s ∧
      sr_functionId req = functionId ∧
      sr_event req = event e ∧
      sr_cors req = cors e ∧
      sr_path req = eventPath e (heap s !! l ≫= (.!! "subdomain")) ∧
      (event e ≠ Some "http" → sr_method req = None) ∧
      (event e = Some "http" →
       ∃ u, sr_method req = Some u ∧ u ≠ "" ∧ toUpperCase u = u) ∧
      r.1 = match gw_subscribe eg req with
            | Some err =>
                if truthy_error err
                then Throw (Error ("Couldn't create subscriptions for " +:+ tmpl functionId
                                   +:+ ". " +:+ err_text err +:+ "."))
                else Return ()
            | None => Return ()
            end).
Proof.
  cbv zeta. rewrite createSubscription_run. unfold subscribe_request.
  destruct (decide (event e = Some "http")) as [Hhttp|Hother].
  - rewrite bool_decide_eq_true_2 by done.
    destruct (method e) as [m|] eqn:Hm; [right|left; done].
    eexists. split; [reflexivity|]. cbn [sr_functionId sr_event sr_cors sr_path sr_method].
    repeat split; try done.
    intros _. unfold js_or.
    destruct (toUpperCase m) as [|c r] eqn:Hu; simpl.
    + by exists "GET".
    + exists (String c r). split; [done|]. split; [done|].
      rewrite <- Hu. apply toUpperCase_idemp.
  - rewrite bool_decide_eq_false_2 by done. right.
    eexists. split; [reflexivity|]. cbn [sr_functionId sr_event sr_cors sr_path sr_method].
    repeat split; try done.
Qed.

(** ** The function id and the ARN of [configureEventGateway] *)

Lemma split_nonempty (c : ascii) (s : string) : split c s ≠ [].
Proof.
  destruct s as [|d r]; simpl; [done|].
  destruct (bool_decide (d = c)); [done|]. by destruct (split c r).
Qed.

Lemma join_cons (sep w : string) (ws : list string) :
  ws ≠ [] → join sep (w :: ws) = w +:+ sep +:+ join sep ws.
Proof. by destruct ws. Qed.

Lemma join_head (sep w : string) (d : ascii) (ws : list string) :
  join sep (String d w :: ws) = String d (join sep (w :: ws)).
Proof. by destruct ws. Qed.

Lemma join_split (c : ascii) (s : string) :
  join (String c EmptyString) (split c s) = s.
Proof.
  induction s as [|d r IH]; [done|]. simpl.
  destruct (bool_decide (d = c)) eqn:E.
  - apply bool_decide_eq_true_1 in E. subst d.
    rewrite join_cons by apply split_nonempty. simpl. by rewrite IH.
  - pose proof (split_nonempty c r) as Hne.
    destruct (split c r) as [|w ws]; [done|].
    by rewrite join_head, IH.
Qed.

Lemma split_colon_free (s : string) : colon_free s → split ":" s = [s].
Proof.
  induction s as [|d r IH]; [done|]. simpl. intros [Hd Hr].
  rewrite bool_decide_eq_false_2 by done. by rewrite IH.
Qed.

Lemma split_append (w rest : string) :
  colon_free w → split ":" (w +:+ ":" +:+ rest) = w :: split ":" rest.
Proof.
  induction w as [|d r IH]; [done|]. simpl. intros [Hd Hr].
  rewrite bool_decide_eq_false_2 by done. by rewrite (IH Hr).
Qed.

Lemma split_join (segs : list string) :
  segs ≠ [] → Forall colon_free segs → split ":" (join ":" segs) = segs.
Proof.
  induction segs as [|w ws IH]; [done|]. intros _ Hall.
  apply Forall_cons in Hall as [Hw Hws].
  destruct ws as [|w' ws'].
  - simpl. by apply split_colon_free.
  - rewrite join_cons by done. rewrite split_append by done.
    by rewrite IH.
Qed.

Lemma split_segments_colon_free (s : string) : Forall colon_free (split ":" s).
Proof.
  induction s as [|d r IH]; simpl; [by repeat constructor|].
  destruct (bool_decide (d = ":"%char)) eqn:E.
  - by constructor.
  - apply bool_decide_eq_false_1 in E.
    destruct (split ":" r) as [|w ws]; [by repeat constructor|].
    apply Forall_cons in IH as [Hw Hws]. by repeat constructor.
Qed.


(** From the colon-separated segments of a versioned ARN the engine takes
    the seventh as the function id and the first seven, joined again, as
    the ARN it registers; with fewer than seven segments there is no
    function id, with at most seven the ARN is registered as it is, and
    deriving again from a derived ARN changes nothing. *)
Theorem descriptor_strips_version (awsProvider : host) (outputs : gmap string string) :
  (∀ segs, segs ≠ [] → Forall colon_free segs →
     fn_functionId (descriptor awsProvider outputs (join ":" segs)) = segs !! 6%nat ∧
     arn (fn_provider (descriptor awsProvider outputs (join ":" segs)))
       = join ":" (take 7 segs)) ∧
  (∀ fullArn,
     (fn_functionId (descriptor awsProvider outputs fullArn) = None
      ↔ length (split ":" fullArn) < 7) ∧
     (length (split ":" fullArn) ≤ 7 →
      arn (fn_provider (descriptor awsProvider outputs fullArn)) = fullArn) ∧
     descriptor awsProvider outputs
       (arn (fn_provider (descriptor awsProvider outputs fullArn)))
       = descriptor awsProvider outputs fullArn).
Proof.
  split.
  - intros segs Hne Hall. unfold descriptor. cbn [fn_functionId fn_provider arn].
    by rewrite split_join.
  - intros fullArn. unfold descriptor. cbn [fn_functionId fn_provider arn].
    split; [|split].
    + rewrite lookup_ge_None. lia.
    + intros Hlen. rewrite take_ge by done. apply join_split.
    + assert (split ":" (join ":" (take 7 (split ":" fullArn)))
              = take 7 (split ":" fullArn)) as ->.
      { apply split_join.
        - pose proof (split_nonempty ":" fullArn). by destruct (split ":" fullArn).
        - apply Forall_take, split_segments_colon_free. }
      rewrite take_idemp. f_equal.
      apply lookup_take_lt. lia.
Qed.

Lemma descriptor_strips_version_witness :
  fn_functionId (descriptor (demo_provider demo_outputs) demo_parsed
                   "arn:aws:lambda:us-east-1:123456789012:function:myFunc:5")
    = Some "myFunc" ∧
  arn (fn_provider (descriptor (demo_provider demo_outputs) demo_parsed
                      "arn:aws:lambda:us-east-1:123456789012:function:myFunc:5"))
    = "arn:aws:lambda:us-east-1:123456789012:function:myFunc".
Proof.
  destruct (descriptor_strips_version (demo_provider demo_outputs) demo_parsed) as [H _].
  apply (H myFunc_segments).
  - discriminate.
  - unfold myFunc_segments. repeat constructor; discriminate.
Defined.

(** ** Failures of [configureEventGateway] before the reconciliation *)

(** [getClient] on any store whose tree holds a section. *)
Lemma getClient_general (s : state) (l : positive) :
  custom s ≫= custom_eventgateway = Some l →
  let section := default ∅ (heap s !! l) in
  getClient s =
  (client_for section,
   set_token (Some (tmpl (js_or (section !! "apikey") (EVENT_GATEWAY_TOKEN s))))
     (set_heap (<[l := resolved section]> (heap s)) s)).
Proof.
  intros Hl section.
  destruct (heap s !! l) as [o|] eqn:Hs.
  - rewrite (getClient_present s l o Hl Hs). unfold client_for, section. simpl.
    by destruct (truthy (o !! "subdomain")), (truthy (o !! "apikey")).
  - unfold getClient. rewrite (bind_Return _ _ _ _ _ (getConfig_present s l Hl)).
    rewrite Hs. unfold section, client_for. simpl.
    unfold mbind, M_bind, get_prop, getenv, setenv, throw. simpl.
    rewrite lookup_insert_eq. simpl. rewrite !resolved_other by done.
    rewrite !lookup_empty. simpl.
    rewrite lookup_insert_eq. simpl. rewrite !resolved_other by done.
    rewrite !lookup_empty. simpl. reflexivity.
Qed.

Lemma client_for_resolved (section : gmap string string) :
  client_for (resolved section) = client_for section.
Proof. unfold client_for. by rewrite !resolved_other. Qed.

(** When the client factory throws, [configureEventGateway] throws the same
    error and has done nothing else: no banner, no stack request, no
    gateway call, and the store is as [getClient] leaves it. *)
Theorem configuration_failure_stops_the_hook (awsProvider : host) (eg : gateway)
    (fns : functions_t) (s : state) (e : error) :
  (getClient s).1 = Throw e →
  configureEventGateway awsProvider eg fns s = (Throw e, (getClient s).2) ∧
  trace (configureEventGateway awsProvider eg fns s).2 = trace s.
Proof.
  intros Hthrow.
  assert (configureEventGateway awsProvider eg fns s = (Throw e, (getClient s).2)) as Hrun.
  { unfold configureEventGateway.
    destruct (custom s ≫= custom_eventgateway) as [l|] eqn:Hl.
    - rewrite (bind_Return _ _ _ _ _ (getConfig_present s l Hl)).
      set (s1 := set_heap _ s).
      assert (custom s1 ≫= custom_eventgateway = Some l) as Hl1 by done.
      pose proof (getClient_general s l Hl) as H0. cbv zeta in H0.
      assert (getClient s1 = (client_for (default ∅ (heap s !! l)), (getClient s).2)) as H1.
      { rewrite (getClient_general s1 l Hl1), H0. cbv zeta. unfold s1.
        cbn [heap set_heap EVENT_GATEWAY_TOKEN snd].
        set (section := default ∅ (heap s !! l)).
        rewrite lookup_insert_eq. cbn [from_option]. unfold id.
        rewrite client_for_resolved, resolved_idemp, insert_insert_eq.
        rewrite resolved_other by done. reflexivity. }
      rewrite H0 in Hthrow. cbn [fst] in Hthrow. rewrite Hthrow in H1.
      by rewrite (bind_Throw _ _ _ _ _ H1).
    - rewrite (bind_Return _ _ _ _ _ (getConfig_absent s Hl)).
      rewrite (getClient_absent s Hl) in *. injection Hthrow as <-.
      by rewrite (bind_Throw _ _ _ _ _ (getClient_absent s Hl)). }
  split; [exact Hrun|]. rewrite Hrun. cbn [snd].
  destruct (custom s ≫= custom_eventgateway) as [l|] eqn:Hl.
  - by rewrite (getClient_general s l Hl).
  - by rewrite (getClient_absent s Hl).
Qed.

Lemma configuration_failure_stops_the_hook_witness :
  (configureEventGateway (demo_provider demo_outputs) (accepting [] []) http_GET
     no_subdomain).1 = Throw (MissingField "subdomain") ∧
  trace (configureEventGateway (demo_provider demo_outputs) (accepting [] []) http_GET
           no_subdomain).2 = [].
Proof.
  destruct (configuration_failure_stops_the_hook (demo_provider demo_outputs)
              (accepting [] []) http_GET no_subdomain (MissingField "subdomain") eq_refl)
    as [Hrun Htrace].
  split; [by rewrite Hrun | exact Htrace].
Defined.

(** On a valid configuration, a stack request rejected with a truthy reason
    makes the hook throw the stack-description error; one rejected with an
    empty reason passes the test of line 116 and the hook throws the
    [TypeError] of reading [Stacks] off [undefined]; an answer without any
    stack makes it throw the stack-not-found error.  In each case the hook
    has printed the banner, asked for the stack and made no call on the
    gateway. *)
Theorem stack_failure_stops_the_hook (awsProvider : host) (eg : gateway)
    (fns : functions_t) (s : state) (l : positive) (section : gmap string string) :
  custom s ≫= custom_eventgateway = Some l →
  heap s !! l = Some section →
  truthy (section !! "subdomain") = true →
  truthy (section !! "apikey") = true →
  let answer := describeStacks awsProvider (getStackName awsProvider)
                  (getStage awsProvider) (getRegion awsProvider) in
  let r := configureEventGateway awsProvider eg fns s in
  (∀ err, answer = inl err →
     r.1 = Throw (if truthy_error err
                  then Error "Error during fetching information about stack."
                  else TypeError "data.Stacks")) ∧
  (answer = inr [] →
   r.1 = Throw (Error "Unable to fetch CloudFormation stack information.")) ∧
  ((∃ err, answer = inl err) ∨ answer = inr [] →
   trace r.2 = trace s ++ banner awsProvider ∧
   List.filter is_call (trace r.2) = List.filter is_call (trace s)).
Proof.
  intros Hl Hs Hd Ha answer r.
  assert (∀ out, (∃ err, answer = inl err ∧
                         out = Throw (if truthy_error err then StackDescribeFailed
                                      else TypeError "data.Stacks"))
                 ∨ answer = inr [] ∧ out = Throw StackNotFound →
                 r = (out, set_trace (trace s ++ banner awsProvider)
                             (after_getClient s l section))) as Hrun.
  { intros out Hcase. unfold r, configureEventGateway.
    rewrite (prologue _ s l section Hl Hs Hd Ha).
    unfold mbind, M_bind, consoleLog, emit. simpl. fold answer.
    rewrite <- !app_assoc. simpl.
    destruct Hcase as [(err & -> & ->)|[-> ->]]; [|reflexivity].
    by destruct (truthy_error err). }
  assert (List.filter is_call (trace s ++ banner awsProvider) = List.filter is_call (trace s))
    as Hcalls.
  { rewrite List.filter_app. simpl. by rewrite app_nil_r. }
  split; [|split].
  - intros err H. by rewrite (Hrun _ (or_introl (ex_intro _ err (conj H eq_refl)))).
  - intros H. by rewrite (Hrun (Throw StackNotFound)) by (right; done).
  - intros [[err H]|H].
    + by rewrite (Hrun _ (or_introl (ex_intro _ err (conj H eq_refl)))).
    + by rewrite (Hrun (Throw StackNotFound)) by (right; done).
Qed.

Lemma stack_failure_stops_the_hook_witness :
  run failing_provider (accepting [] []) http_GET
    = (Throw (Error "Error during fetching information about stack."), preamble) ∧
  run silent_provider (accepting [] []) http_GET
    = (Throw (TypeError "data.Stacks"), preamble) ∧
  run empty_provider (accepting [] []) http_GET
    = (Throw (Error "Unable to fetch CloudFormation stack information."), preamble).
Proof.
  destruct (stack_failure_stops_the_hook failing_provider (accepting [] []) http_GET
              acme 1%positive {[ "subdomain" := "acme"; "apikey" := "k" ]}
              eq_refl eq_refl eq_refl eq_refl) as (H1 & _ & H1t).
  destruct (stack_failure_stops_the_hook silent_provider (accepting [] []) http_GET
              acme 1%positive {[ "subdomain" := "acme"; "apikey" := "k" ]}
              eq_refl eq_refl eq_refl eq_refl) as (H3 & _ & H3t).
  destruct (stack_failure_stops_the_hook empty_provider (accepting [] []) http_GET
              acme 1%positive {[ "subdomain" := "acme"; "apikey" := "k" ]}
              eq_refl eq_refl eq_refl eq_refl) as (_ & H2 & H2t).
  unfold run. cbv zeta in *. split; [|split].
  - rewrite (H1 (Rejection "AccessDenied") eq_refl).
    destruct H1t as [-> _]; [left; by exists (Rejection "AccessDenied")|]. reflexivity.
  - rewrite (H3 (Rejection "") eq_refl).
    destruct H3t as [-> _]; [left; by exists (Rejection "")|]. reflexivity.
  - rewrite H2 by reflexivity. destruct H2t as [-> _]; [by right|]. reflexivity.
Defined.

(** ** The deletion of functions the project no longer declares *)

Lemma Promise_all_unsubscribe (eg : gateway) (subs : list subscription) (s : state) :
  (to (Promise_all (map (λ toDelete, eg_unsubscribe eg (subscriptionId toDelete)) subs)) s).2
  = set_trace
      (trace s ++ ((λ toDelete, Call (unsubscribe (subscriptionId toDelete))) <$> subs)) s.
Proof.
  revert s. induction subs as [|x r IH]; intros s.
  - simpl. by rewrite app_nil_r, set_trace_same.
  - cbn [map Promise_all].
    assert (to (eg_unsubscribe eg (subscriptionId x)) s
            = (Return match gw_unsubscribe eg (subscriptionId x) with
                      | Some e => (Some e, None)
                      | None => (None, Some ())
                      end,
               set_trace (trace s ++ [Call (unsubscribe (subscriptionId x))]) s)) as Hx.
    { unfold to, eg_unsubscribe, mbind, M_bind, emit, settle. simpl.
      by destruct (gw_unsubscribe eg (subscriptionId x)). }
    unfold to at 1. rewrite (bind_Return _ _ _ _ _ Hx).
    set (s1 := set_trace _ s).
    specialize (IH s1).
    destruct (to (Promise_all _) s1) as [[rest|e] s2] eqn:Hrest; cbn [snd] in IH; subst s2;
      [|unfold to in Hrest; destruct (Promise_all _ s1) as [[]]; discriminate].
    rewrite (bind_Return _ _ _ _ _ Hrest).
    unfold s1. cbn [trace set_trace]. rewrite set_trace_twice, <- app_assoc.
    destruct (gw_unsubscribe eg (subscriptionId x)), rest as [[] ?]; reflexivity.
Qed.

Lemma to_Return {A : Type} (p : M A) (s : state) :
  ∃ answer, to p s = (Return answer, (to p s).2).
Proof. unfold to. destruct (p s) as [[a|e] s']; eauto. Qed.

Lemma to_deleteFunction_run (eg : gateway) (id : string) (s : state) :
  to (eg_deleteFunction eg id) s =
  (Return match gw_deleteFunction eg id with
          | Some e => (Some e, None)
          | None => (None, Some ())
          end,
   set_trace (trace s ++ [Call (deleteFunction id)]) s).
Proof.
  unfold to, eg_deleteFunction, mbind, M_bind, emit, settle. simpl.
  by destruct (gw_deleteFunction eg id).
Qed.

Lemma delete_function_run (eg : gateway) (subscriptions : list subscription)
    (functionToDelete : regfn) (s : state) :
  detached (delete_function eg (Some subscriptions) functionToDelete) s =
  (Return (), set_trace (trace s ++ delete_obs subscriptions functionToDelete) s).
Proof.
  apply detached_Return. unfold delete_function, delete_obs.
  destruct (to_Return
              (Promise_all (map (λ toDelete, eg_unsubscribe eg (subscriptionId toDelete))
                              (filter (λ x, s_functionId x = f_functionId functionToDelete)
                                 subscriptions))) s) as [answer Hall].
  rewrite Promise_all_unsubscribe in Hall.
  rewrite (bind_Return _ _ _ _ _ Hall).
  rewrite (bind_Return _ _ _ _ _ (to_deleteFunction_run eg _ _)).
  unfold consoleLog, emit. cbn [trace set_trace]. rewrite !set_trace_twice.
  by rewrite <- !app_assoc.
Qed.

Lemma delete_obs_deletes (subscriptions : list subscription) (fs : list regfn) :
  List.filter is_delete (mjoin (delete_obs subscriptions <$> fs))
  = (λ f, Call (deleteFunction (f_functionId f))) <$> fs.
Proof.
  induction fs as [|f r IH]; [done|].
  change (mjoin (delete_obs subscriptions <$> f :: r))
    with (delete_obs subscriptions f ++ mjoin (delete_obs subscriptions <$> r)).
  rewrite fmap_cons, List.filter_app, IH.
  unfold delete_obs at 1. rewrite List.filter_app. simpl.
  assert (List.filter is_delete
            ((λ toDelete, Call (unsubscribe (subscriptionId toDelete))) <$>
               filter (λ x, s_functionId x = f_functionId f) subscriptions) = []) as ->;
    [|done].
  induction (filter _ subscriptions) as [|x xs IHx]; [done|]. simpl. exact IHx.
Qed.

Lemma delete_obs_unsubscribes (subscriptions : list subscription) (fs : list regfn)
    (id : string) :
  Call (unsubscribe id) ∈ mjoin (delete_obs subscriptions <$> fs) ↔
  ∃ sub, sub ∈ subscriptions ∧ subscriptionId sub = id ∧
         s_functionId sub ∈ f_functionId <$> fs.
Proof.
  rewrite list_elem_of_join. split.
  - intros (t & Hin & Ht). apply list_elem_of_fmap in Ht as (f & -> & Hf).
    unfold delete_obs in Hin. apply elem_of_app in Hin as [Hin|Hin].
    + apply list_elem_of_fmap in Hin as (sub & [= ->] & Hsub).
      apply list_elem_of_filter in Hsub as [Hid Hsub].
      exists sub. split; [done|]. split; [done|].
      rewrite Hid. apply list_elem_of_fmap. by exists f.
    + repeat (apply elem_of_cons in Hin as [Hin|Hin]; [discriminate|]).
      by apply elem_of_nil in Hin.
  - intros (sub & Hsub & <- & Hf). apply list_elem_of_fmap in Hf as (f & Hid & Hf).
    exists (delete_obs subscriptions f). split.
    + unfold delete_obs. apply elem_of_app. left.
      apply list_elem_of_fmap. exists sub. split; [done|].
      by apply list_elem_of_filter.
    + apply list_elem_of_fmap. by exists f.
Qed.

Lemma filter_none {A : Type} (f : A → bool) (xs : list A) :
  Forall (λ x, f x = false) xs → List.filter f xs = [].
Proof. induction 1 as [|x r Hx _ IH]; simpl; [done|]. by rewrite Hx. Qed.

Lemma deletion_run (eg : gateway) (subscriptions : option (list subscription))
    (functionToDelete : regfn) (s : state) :
  detached (delete_function eg subscriptions functionToDelete) s =
  (Return (), set_trace (trace s ++ deletion_obs subscriptions functionToDelete) s).
Proof.
  destruct subscriptions as [subscriptions|]; [apply delete_function_run | done].
Qed.

Lemma deletion_loop_run (eg : gateway) (subscriptions : option (list subscription))
    (fs : list regfn) (s : state) :
  forEach (λ functionToDelete,
             detached (delete_function eg subscriptions functionToDelete)) fs s =
  (Return (), set_trace (trace s ++ mjoin (deletion_obs subscriptions <$> fs)) s).
Proof.
  apply (forEach_appends _ _ (heap s)); [|done].
  intros f s' _. apply deletion_run.
Qed.

Lemma deletion_obs_undefined (fs : list regfn) :
  Forall adds_only (mjoin (deletion_obs None <$> fs)).
Proof. induction fs as [|f r IH]; [constructor|]. by constructor. Qed.

Lemma adds_only_no_call (t : list obs) :
  Forall adds_only t →
  List.filter is_delete t = [] ∧ List.filter is_unsubscribe t = [] ∧
  List.filter is_listing t = [].
Proof.
  intros H. repeat split; apply filter_none; (eapply Forall_impl; [exact H|]);
    intros o Ho; by destruct o as [| |[]|].
Qed.

(** The loop of line 201 never throws, whatever the gateway answers.  When
    [subscriptions] is an array, the loop sends one [deleteFunction] for
    each function it is given and no other, and it sends an [unsubscribe]
    for an id exactly when a listed subscription with that id carries the
    id of one of these functions.  When [subscriptions] is [undefined],
    every callback throws at line 202 and the loop sends nothing. *)
Theorem orphans_are_unsubscribed_and_deleted (eg : gateway)
    (subscriptions : option (list subscription)) (fs : list regfn) (s : state) :
  ∃ t,
    forEach (λ functionToDelete,
               detached (delete_function eg subscriptions functionToDelete)) fs s =
    (Return (), set_trace (trace s ++ t) s) ∧
    match subscriptions with
    | Some subscriptions =>
        List.filter is_delete t ≡ₚ (λ f, Call (deleteFunction (f_functionId f))) <$> fs ∧
        ∀ id, Call (unsubscribe id) ∈ t ↔
              ∃ sub, sub ∈ subscriptions ∧ subscriptionId sub = id ∧
                     s_functionId sub ∈ f_functionId <$> fs
    | None => List.filter is_call t = []
    end.
Proof.
  exists (mjoin (deletion_obs subscriptions <$> fs)).
  split; [apply deletion_loop_run|].
  destruct subscriptions as [subscriptions|].
  - split.
    + change (deletion_obs (Some subscriptions)) with (delete_obs subscriptions).
      by rewrite delete_obs_deletes.
    + apply delete_obs_unsubscribes.
  - induction fs as [|f r IH]; [done|]. exact IH.
Qed.

(** ** What the reconciliation may and may not do *)

Lemma adds_only_reconciles (fs : list regfn) (ss : list subscription) (t : list obs) :
  Forall adds_only t → Forall (reconciles fs ss) t.
Proof. intros H. eapply Forall_impl; [exact H|]. intros o Ho. by left. Qed.

Lemma reconciles_mono (fs fs' : list regfn) (ss : list subscription) (t : list obs) :
  fs' ⊆ fs → Forall (reconciles fs' ss) t → Forall (reconciles fs ss) t.
Proof.
  intros Hsub H. eapply Forall_impl; [exact H|].
  intros o [Ho|(sub & -> & Hin & Hf)]; [by left|].
  right. exists sub. split; [done|]. split; [done|].
  apply list_elem_of_fmap in Hf as (f & -> & Hf).
  apply list_elem_of_fmap. exists f. split; [done|]. by apply Hsub.
Qed.

Lemma subscribe_new_obs_one_adds_only (functionId subdomain : option string) (name : string)
    (ev : trigger) :
  Forall adds_only (subscribe_new_obs functionId subdomain name ev).
Proof.
  unfold subscribe_new_obs. destruct (eventgateway ev) as [e|].
  - destruct (subscribe_request _ _ e); repeat constructor.
  - repeat constructor.
Qed.

Lemma subscribe_new_obs_adds_only (functionId subdomain : option string) (name : string)
    (evs : list trigger) :
  Forall adds_only (mjoin (subscribe_new_obs functionId subdomain name <$> evs)).
Proof.
  induction evs as [|ev r IH]; [constructor|].
  change (Forall adds_only
            (subscribe_new_obs functionId subdomain name ev
             ++ mjoin (subscribe_new_obs functionId subdomain name <$> r))).
  apply Forall_app. split; [apply subscribe_new_obs_one_adds_only | done].
Qed.

(** A declared gateway event that finds no subscription on a registered
    function: the same request and confirmation as for a new function. *)
Lemma reconcile_event_missing (eg : gateway) (l : positive) (name : string)
    (functionId : option string) (e : gwevent) (s : state) :
  List.find (matchb (heap s !! l ≫= (.!! "subdomain")) e) (createdSubscriptions s) = None →
  detached (reconcile_event eg (Some l) name functionId {| eventgateway := Some e |}) s =
  (Return (),
   set_trace (trace s ++ subscribe_new_obs functionId (heap s !! l ≫= (.!! "subdomain"))
                           name {| eventgateway := Some e |}) s).
Proof.
  intros Hfind. unfold detached, reconcile_event, subscribe_new_obs. cbn [eventgateway].
  rewrite (bind_Return (read createdSubscriptions) _ s s (createdSubscriptions s) eq_refl).
  rewrite (bind_Return _ _ _ _ _
             (findM_pure _ _ _ s (λ x, same_subscription_run l e x s))).
  rewrite Hfind.
  unfold mbind, M_bind, to. rewrite createSubscription_run.
  destruct (subscribe_request _ _ e) as [err|req]; simpl.
  - done.
  - destruct (gw_subscribe eg req) as [err|]; [destruct (truthy_error err)|]; simpl;
      by rewrite <- app_assoc.
Qed.

(** One callback of the loop of lines 176-190, whatever the trigger and the
    working list: it can only take subscriptions off the list, and it only
    adds. *)
Lemma reconcile_event_effect (eg : gateway) (l : positive) (name : string)
    (functionId : option string) (ev : trigger) (s : state) :
  ∃ t W,
    detached (reconcile_event eg (Some l) name functionId ev) s =
    (Return (), set_createdSubscriptions W (set_trace (trace s ++ t) s)) ∧
    W ⊆ createdSubscriptions s ∧ Forall adds_only t.
Proof.
  destruct ev as [[e|]].
  - destruct (List.find (matchb (heap s !! l ≫= (.!! "subdomain")) e)
                (createdSubscriptions s)) as [c|] eqn:Hfind.
    + exists [], (filter (λ x, subscriptionId x ≠ subscriptionId c) (createdSubscriptions s)).
      split; [|split; [|constructor]].
      * rewrite (reconcile_event_found eg l name functionId e c s Hfind).
        by rewrite app_nil_r.
      * apply list_subseteq_filter.
    + eexists _, (createdSubscriptions s).
      split; [|split; [done|]].
      * rewrite (reconcile_event_missing eg l name functionId e s Hfind). reflexivity.
      * apply subscribe_new_obs_one_adds_only.
  - exists [Unhandled (TypeError "event.event")], (createdSubscriptions s).
    split; [|split; [done|repeat constructor]].
    by rewrite reconcile_event_other.
Qed.

Lemma reconcile_events_effect (eg : gateway) (l : positive) (name : string)
    (functionId : option string) (evs : list trigger) (s : state) :
  ∃ t W,
    forEach (λ ev, detached (reconcile_event eg (Some l) name functionId ev)) evs s =
    (Return (), set_createdSubscriptions W (set_trace (trace s ++ t) s)) ∧
    W ⊆ createdSubscriptions s ∧ Forall adds_only t.
Proof.
  revert s. induction evs as [|ev r IH]; intros s.
  - exists [], (createdSubscriptions s). split; [|split; [done|constructor]].
    destruct s. simpl. by rewrite app_nil_r.
  - destruct (reconcile_event_effect eg l name functionId ev s) as (t1 & W1 & H1 & Hs1 & Ha1).
    destruct (IH (set_createdSubscriptions W1 (set_trace (trace s ++ t1) s)))
      as (t2 & W2 & H2 & Hs2 & Ha2).
    exists (t1 ++ t2), W2. split; [|split].
    + cbn [forEach]. rewrite (bind_Return _ _ _ _ _ H1), H2.
      cbn [trace set_trace set_createdSubscriptions]. by rewrite <- app_assoc.
    + cbn [createdSubscriptions set_createdSubscriptions] in Hs2. set_solver.
    + by apply Forall_app.
Qed.

Lemma cleanup_run (eg : gateway) (name : string) (sub : subscription) (s : state) :
  detached (cleanup eg name sub) s =
  (Return (), set_trace (trace s ++ cleanup_obs eg name sub) s).
Proof.
  unfold detached, cleanup, cleanup_obs, eg_unsubscribe, mbind, M_bind, emit, settle,
    consoleLog. simpl.
  destruct (gw_unsubscribe eg (subscriptionId sub)); simpl;
    rewrite <- !app_assoc; reflexivity.
Qed.

Lemma cleanup_obs_reconciles (eg : gateway) (name : string) (fs : list regfn)
    (ss stale : list subscription) :
  (∀ sub, sub ∈ stale → sub ∈ ss ∧ s_functionId sub ∈ f_functionId <$> fs) →
  Forall (reconciles fs ss) (mjoin (cleanup_obs eg name <$> stale)).
Proof.
  induction stale as [|sub r IH]; intros Hall; [constructor|].
  change (Forall (reconciles fs ss)
            (cleanup_obs eg name sub ++ mjoin (cleanup_obs eg name <$> r))).
  apply Forall_app. split.
  - unfold cleanup_obs. constructor.
    + right. exists sub. split; [done|]. apply Hall. left.
    + apply adds_only_reconciles.
      destruct (gw_unsubscribe eg (subscriptionId sub)); repeat constructor.
  - apply IH. intros x Hx. apply Hall. by right.
Qed.

(** The callback of line 142 while [functions] is [undefined]: it throws
    before it sends anything. *)
Lemma reconcile_function_undefined (awsProvider : host) (eg : gateway) (fns : functions_t)
    (l : positive) (outputs : gmap string string) (ss : option (list subscription))
    (name : string) (s : state) :
  functions s = None →
  ∃ e, detached (reconcile_function awsProvider eg fns (Some l) outputs ss name) s =
       (Return (), set_trace (trace s ++ [Unhandled e]) s).
Proof.
  intros Hnone. unfold detached, reconcile_function.
  destruct (outputs !! getLambdaVersionOutputLogicalId awsProvider name) as [fullArn|].
  - rewrite (bind_Return (read functions) _ s s (functions s) eq_refl), Hnone. eauto.
  - eauto.
Qed.

Lemma reconcile_all_undefined (awsProvider : host) (eg : gateway) (fns : functions_t)
    (l : positive) (outputs : gmap string string) (ss : option (list subscription))
    (names : list string) (s : state) :
  functions s = None →
  ∃ t,
    forEach (λ name, detached
                       (reconcile_function awsProvider eg fns (Some l) outputs ss name))
      names s = (Return (), set_trace (trace s ++ t) s) ∧
    Forall adds_only t.
Proof.
  revert s. induction names as [|name r IH]; intros s Hnone.
  - exists []. split; [|constructor]. simpl. by rewrite app_nil_r, set_trace_same.
  - destruct (reconcile_function_undefined awsProvider eg fns l outputs ss name s Hnone)
      as (e & H1).
    destruct (IH (set_trace (trace s ++ [Unhandled e]) s) Hnone) as (t2 & H2 & Ha2).
    exists (Unhandled e :: t2). split; [|by constructor].
    cbn [forEach]. rewrite (bind_Return _ _ _ _ _ H1), H2.
    cbn [trace set_trace]. by rewrite set_trace_twice, <- app_assoc.
Qed.

(** The callback of line 142 while [functions] is an array, whatever the
    declarations and the gateway: it never rejects past its own promise, it
    leaves in the working set of functions exactly those with another id
    than the one it derived, and what it sends either adds or unsubscribes
    a listed subscription of a function of the working set. *)
Lemma reconcile_function_effect (awsProvider : host) (eg : gateway) (fns : functions_t)
    (l : positive) (outputs : gmap string string) (ss : option (list subscription))
    (name : string) (known : list regfn) (s : state) :
  functions s = Some known →
  ∃ t W,
    detached (reconcile_function awsProvider eg fns (Some l) outputs ss name) s =
    (Return (),
     set_createdSubscriptions W
       (set_functions
          (Some (filter (λ f, Some (f_functionId f) ≠ functionId_of awsProvider outputs name)
                   known))
          (set_trace (trace s ++ t) s))) ∧
    Forall (reconciles known (default [] ss)) t.
Proof.
  intros Hknown.
  assert (∀ t, set_createdSubscriptions (createdSubscriptions s)
                 (set_functions (Some known) (set_trace t s)) = set_trace t s) as Hsame.
  { intros t. unfold set_createdSubscriptions, set_functions, set_trace. simpl.
    by rewrite <- Hknown. }
  unfold functionId_of.
  destruct (outputs !! getLambdaVersionOutputLogicalId awsProvider name)
    as [fullArn|] eqn:Hout; cbn [mbind option_bind].
  - set (fid := split ":" fullArn !! 6%nat).
    destruct (List.find (λ f, bool_decide (Some (f_functionId f) = fid)) known)
      as [registered|] eqn:Hfind.
    + pose proof (find_some _ _ Hfind) as [Hreg%list_elem_of_In Hid].
      apply bool_decide_eq_true_1 in Hid.
      destruct ss as [ss|]; cbn [from_option Datatypes.id].
      * set (own := filter (λ x, Some (s_functionId x) = fid) ss).
        set (s2 := set_createdSubscriptions own
                     (set_functions (Some (filter (λ f, Some (f_functionId f) ≠ fid) known))
                        s)).
        assert (∀ sub, sub ∈ own → sub ∈ ss ∧ s_functionId sub ∈ f_functionId <$> known)
          as Hown.
        { intros sub [Hsid Hsub]%list_elem_of_filter. split; [done|].
          apply list_elem_of_fmap. exists registered. split; [|done].
          rewrite <- Hid in Hsid. by injection Hsid. }
        destruct (getFunction fns name ≫= events) as [evs|] eqn:Hevs.
        -- destruct (reconcile_events_effect eg l name fid evs s2)
             as (t1 & W1 & H1 & Hs1 & Ha1).
           exists (t1 ++ mjoin (cleanup_obs eg name <$> W1)), W1. split.
           ++ apply detached_Return. unfold reconcile_function. rewrite Hout, Hevs.
              fold fid.
              rewrite (bind_Return (read functions) _ s s (functions s) eq_refl).
              rewrite Hknown, Hfind.
              rewrite (bind_Return (write _) _ s _ () eq_refl).
              rewrite (bind_Return (write _) _ _ _ () eq_refl).
              unfold forEach_of. fold own. fold s2.
              rewrite (bind_Return _ _ _ _ _ H1).
              set (s3 := set_createdSubscriptions W1 (set_trace (trace s2 ++ t1) s2)).
              rewrite (bind_Return (read createdSubscriptions) _ s3 s3 W1 eq_refl).
              rewrite (forEach_appends _ (cleanup_obs eg name) (heap s)); [| |done].
              ** unfold s3, s2.
                 cbn [trace set_trace set_createdSubscriptions set_functions].
                 by rewrite <- app_assoc.
              ** intros sub s' _. apply cleanup_run.
           ++ apply Forall_app. split; [by apply adds_only_reconciles|].
              apply cleanup_obs_reconciles. intros sub Hsub. apply Hown. by apply Hs1.
        -- exists [Unhandled (TypeError "functionEvents.forEach")], own.
           split; [|repeat constructor].
           unfold detached, reconcile_function. rewrite Hout, Hevs. fold fid.
           rewrite (bind_Return (read functions) _ s s (functions s) eq_refl).
           rewrite Hknown, Hfind.
           rewrite (bind_Return (write _) _ s _ () eq_refl).
           rewrite (bind_Return (write _) _ _ _ () eq_refl).
           reflexivity.
      * exists [Unhandled (TypeError "subscriptions.filter")], (createdSubscriptions s).
        split; [|repeat constructor].
        unfold detached, reconcile_function. rewrite Hout. fold fid.
        rewrite (bind_Return (read functions) _ s s (functions s) eq_refl).
        rewrite Hknown, Hfind.
        rewrite (bind_Return (write _) _ s _ () eq_refl).
        reflexivity.
    + assert (filter (λ f, Some (f_functionId f) ≠ fid) known = known) as ->.
      { apply filter_all. intros f Hf%list_elem_of_In Heq.
        pose proof (find_none _ _ Hfind f Hf) as Hno. simpl in Hno.
        by rewrite bool_decide_eq_true_2 in Hno. }
      destruct (getFunction fns name ≫= events) as [evs|] eqn:Hevs.
      * eexists _, (createdSubscriptions s). split.
        -- apply detached_Return.
           rewrite (reconcile_function_new awsProvider eg fns l outputs ss name fullArn
                      evs known s Hout Hevs Hknown Hfind).
           by rewrite Hsame.
        -- constructor; [by left|]. constructor; [by left|].
           apply adds_only_reconciles, subscribe_new_obs_adds_only.
      * exists [Call (registerFunction_call (descriptor awsProvider outputs fullArn));
                Log (registered_line name fid);
                Unhandled (TypeError "functionEvents.forEach")], (createdSubscriptions s).
        split; [|repeat constructor; by left].
        rewrite Hsame.
        unfold detached, reconcile_function. rewrite Hout, Hevs. fold fid.
        rewrite (bind_Return (read functions) _ s s (functions s) eq_refl).
        rewrite Hknown, Hfind.
        fold (descriptor awsProvider outputs fullArn).
        rewrite (bind_Return _ _ _ _ _
                   (to_registerFunction_run eg (descriptor awsProvider outputs fullArn) s)).
        unfold consoleLog.
        rewrite (bind_Return (emit _) _ _ _ () eq_refl).
        simpl. rewrite <- !app_assoc. reflexivity.
  - exists [Unhandled (TypeError "fullArn.split")], (createdSubscriptions s).
    split; [|repeat constructor].
    rewrite filter_all by done. rewrite Hsame.
    unfold detached, reconcile_function. by rewrite Hout.
Qed.

Lemma orphans_cons (awsProvider : host) (outputs : gmap string string) (name : string)
    (names : list string) (fs : list regfn) :
  orphans awsProvider outputs names
    (filter (λ f, Some (f_functionId f) ≠ functionId_of awsProvider outputs name) fs)
  = orphans awsProvider outputs (name :: names) fs.
Proof.
  unfold orphans. rewrite list_filter_filter. apply list_filter_iff.
  intros f. rewrite fmap_cons, not_elem_of_cons. tauto.
Qed.

(** The loop of line 142 while [functions] is an array, whatever the
    declarations and the gateway: it leaves in the working set exactly the
    orphans. *)
Lemma reconcile_all_effect (awsProvider : host) (eg : gateway) (fns : functions_t)
    (l : positive) (outputs : gmap string string) (ss : option (list subscription))
    (names : list string) (known : list regfn) (s : state) :
  functions s = Some known →
  ∃ t W,
    forEach (λ name, detached
                       (reconcile_function awsProvider eg fns (Some l) outputs ss name))
      names s =
    (Return (),
     set_createdSubscriptions W
       (set_functions (Some (orphans awsProvider outputs names known))
          (set_trace (trace s ++ t) s))) ∧
    Forall (reconciles known (default [] ss)) t.
Proof.
  revert known s. induction names as [|name r IH]; intros known s Hknown.
  - exists [], (createdSubscriptions s). split; [|constructor].
    unfold orphans. rewrite filter_all by (intros f _; apply not_elem_of_nil).
    destruct s. simpl in *. subst. by rewrite app_nil_r.
  - destruct (reconcile_function_effect awsProvider eg fns l outputs ss name known s Hknown)
      as (t1 & W1 & H1 & Ha1).
    set (s1 := set_createdSubscriptions W1 _) in H1.
    destruct (IH (filter (λ f, Some (f_functionId f) ≠ functionId_of awsProvider outputs name)
                    known) s1 eq_refl) as (t2 & W2 & H2 & Ha2).
    exists (t1 ++ t2), W2. split.
    + cbn [forEach]. rewrite (bind_Return _ _ _ _ _ H1), H2.
      unfold s1. cbn [functions trace set_trace set_createdSubscriptions set_functions].
      by rewrite orphans_cons, <- app_assoc.
    + apply Forall_app. split; [done|].
      eapply reconciles_mono; [|exact Ha2].
      apply list_subseteq_filter.
Qed.

Lemma to_listFunctions_general (eg : gateway) (s : state) :
  to (eg_listFunctions eg) s =
  (Return match gw_listFunctions eg with
          | inl e => (Some e, None)
          | inr result => (None, Some result)
          end,
   set_trace (trace s ++ [Call listFunctions]) s).
Proof.
  unfold to, eg_listFunctions, mbind, M_bind, emit. simpl.
  by destruct (gw_listFunctions eg).
Qed.

Lemma to_listSubscriptions_general (eg : gateway) (s : state) :
  to (eg_listSubscriptions eg) s =
  (Return match gw_listSubscriptions eg with
          | inl e => (Some e, None)
          | inr result => (None, Some result)
          end,
   set_trace (trace s ++ [Call listSubscriptions]) s).
Proof.
  unfold to, eg_listSubscriptions, mbind, M_bind, emit. simpl.
  by destruct (gw_listSubscriptions eg).
Qed.

(** From the entry of the hook to the loop of line 142, on a run that
    finds the credentials. *)
Lemma run_to_loop (awsProvider : host) (eg : gateway) (fns : functions_t)
    (s : state) (l : positive) (section : gmap string string)
    (stacks : list stack) (st : stack) :
  custom s ≫= custom_eventgateway = Some l →
  heap s !! l = Some section →
  truthy (section !! "subdomain") = true →
  truthy (section !! "apikey") = true →
  describeStacks awsProvider (getStackName awsProvider) (getStage awsProvider)
    (getRegion awsProvider) = inr stacks →
  last stacks = Some st →
  truthy (parseOutputs st !! "EventGatewayUserAccessKey") = true →
  truthy (parseOutputs st !! "EventGatewayUserSecretKey") = true →
  configureEventGateway awsProvider eg fns s =
  (forEach (λ name, detached
                      (reconcile_function awsProvider eg fns (Some l) (parseOutputs st)
                         (subscriptions_after_listing eg) name))
     (filterFunctionsWithEvents fns);;
   orphans ← read functions;
   forEach_of "functions"
     (λ functionToDelete,
        detached (delete_function eg (subscriptions_after_listing eg) functionToDelete))
     orphans)
    (set_functions (functions_after_listing eg)
       (set_trace (trace s ++ banner awsProvider
                   ++ [Call listFunctions; Call listSubscriptions])
          (after_getClient s l section))).
Proof.
  intros Hl Hs Hd Ha Hdesc Hlast Hak Hsk.
  unfold configureEventGateway.
  rewrite (prologue _ s l section Hl Hs Hd Ha).
  set (s0 := after_getClient s l section).
  unfold consoleLog.
  rewrite (bind_Return (emit _) _ s0 _ () eq_refl).
  rewrite (bind_Return (emit _) _ _ _ () eq_refl).
  rewrite (bind_Return (emit _) _ _ _ () eq_refl).
  rewrite Hdesc, Hlast, Hak, Hsk. cbn [negb orb].
  rewrite (bind_Return (write _) _ _ _ () eq_refl).
  rewrite (bind_Return _ _ _ _ _ (to_listFunctions_general eg _)).
  unfold functions_after_listing, subscriptions_after_listing.
  destruct (gw_listFunctions eg) as [e1|fs]; cbn [fst snd truthy_err];
    [destruct (truthy_error e1)|]; cbn [negb];
    [ rewrite (bind_Return (mret ()) _ _ _ () eq_refl)
    | rewrite (bind_Return (write _) _ _ _ () eq_refl)
    | rewrite (bind_Return (write _) _ _ _ () eq_refl) ];
    rewrite (bind_Return _ _ _ _ _ (to_listSubscriptions_general eg _));
    (destruct (gw_listSubscriptions eg) as [e2|ss]; cbn [fst snd truthy_err];
     [destruct (truthy_error e2)|]; cbn [negb]).
  all: unfold s0, after_getClient, banner;
    cbn [trace functions set_trace set_functions set_token set_heap];
    rewrite <- !app_assoc; reflexivity.
Qed.

Lemma listed_functions_after (eg : gateway) :
  listed_functions eg = default [] (functions_after_listing eg).
Proof.
  unfold listed_functions, functions_after_listing.
  destruct (gw_listFunctions eg) as [e|fs]; [|done]. by destruct (truthy_error e).
Qed.

Lemma listed_subscriptions_after (eg : gateway) :
  listed_subscriptions eg = default [] (subscriptions_after_listing eg).
Proof.
  unfold listed_subscriptions, subscriptions_after_listing.
  destruct (gw_listSubscriptions eg) as [e|ss]; [|done]. by destruct (truthy_error e).
Qed.

(** The shape of every run that finds the credentials: the banner and the
    stack request, the two listings, the loop over the declared functions,
    the deletion of the orphans; the hook throws at line 201 when
    [functions] is [undefined] and returns otherwise. *)
Lemma reconciliation_run (awsProvider : host) (eg : gateway) (fns : functions_t)
    (s : state) (l : positive) (section : gmap string string)
    (stacks : list stack) (st : stack) :
  custom s ≫= custom_eventgateway = Some l →
  heap s !! l = Some section →
  truthy (section !! "subdomain") = true →
  truthy (section !! "apikey") = true →
  describeStacks awsProvider (getStackName awsProvider) (getStage awsProvider)
    (getRegion awsProvider) = inr stacks →
  last stacks = Some st →
  truthy (parseOutputs st !! "EventGatewayUserAccessKey") = true →
  truthy (parseOutputs st !! "EventGatewayUserSecretKey") = true →
  ∃ t final,
    configureEventGateway awsProvider eg fns s =
      (match functions_after_listing eg with
       | Some _ => Return ()
       | None => Throw (TypeError "functions.forEach")
       end, final) ∧
    trace final =
      trace s ++ banner awsProvider ++ [Call listFunctions; Call listSubscriptions] ++ t
      ++ mjoin (deletion_obs (subscriptions_after_listing eg) <$>
                orphans awsProvider (parseOutputs st) (filterFunctionsWithEvents fns)
                  (listed_functions eg)) ∧
    Forall (reconciles (listed_functions eg) (listed_subscriptions eg)) t.
Proof.
  intros Hl Hs Hd Ha Hdesc Hlast Hak Hsk.
  rewrite (run_to_loop awsProvider eg fns s l section stacks st
             Hl Hs Hd Ha Hdesc Hlast Hak Hsk).
  rewrite listed_functions_after, listed_subscriptions_after.
  set (s1 := set_functions _ _).
  destruct (functions_after_listing eg) as [fs|] eqn:Hfs; cbn [from_option Datatypes.id].
  - destruct (reconcile_all_effect awsProvider eg fns l (parseOutputs st)
                (subscriptions_after_listing eg) (filterFunctionsWithEvents fns) fs s1
                eq_refl) as (t & W & Hrun & Hsafe).
    rewrite (bind_Return _ _ _ _ _ Hrun).
    set (s2 := set_createdSubscriptions W _).
    rewrite (bind_Return (read functions) _ s2 s2 (functions s2) eq_refl).
    unfold s2 at 1. cbn [functions set_createdSubscriptions set_functions forEach_of].
    rewrite deletion_loop_run.
    exists t. eexists. split; [reflexivity|]. split; [|exact Hsafe].
    unfold s2, s1, after_getClient.
    cbn [trace functions set_trace set_createdSubscriptions set_functions
           set_token set_heap].
    by rewrite <- !app_assoc.
  - destruct (reconcile_all_undefined awsProvider eg fns l (parseOutputs st)
                (subscriptions_after_listing eg) (filterFunctionsWithEvents fns) s1
                eq_refl) as (t & Hrun & Hadds).
    rewrite (bind_Return _ _ _ _ _ Hrun).
    set (s2 := set_trace _ s1).
    rewrite (bind_Return (read functions) _ s2 s2 (functions s2) eq_refl).
    exists t. eexists. split; [reflexivity|]. split; [|by apply adds_only_reconciles].
    unfold s2, s1, after_getClient. unfold orphans. rewrite filter_nil.
    cbn [trace functions set_trace set_createdSubscriptions set_functions
           set_token set_heap fmap list_fmap mjoin list_join].
    by rewrite <- !app_assoc, !app_nil_r.
Qed.

Lemma reconciles_no_delete (fs : list regfn) (ss : list subscription) (t : list obs) :
  Forall (reconciles fs ss) t →
  List.filter is_delete t = [] ∧ List.filter is_listing t = [].
Proof.
  intros H. split; apply filter_none; (eapply Forall_impl; [exact H|]);
    intros o [Ho|(sub & -> & _)]; try done; by destruct o as [| |[]|].
Qed.

Lemma deletion_obs_no_listing (ss : option (list subscription)) (fs : list regfn) :
  List.filter is_listing (mjoin (deletion_obs ss <$> fs)) = [].
Proof.
  apply filter_none, Forall_forall. intros o Ho.
  apply list_elem_of_join in Ho as (t & Ho & Ht).
  apply list_elem_of_fmap in Ht as (f & -> & _).
  destruct ss as [ss|]; cbn [deletion_obs] in Ho.
  - unfold delete_obs in Ho. apply elem_of_app in Ho as [Ho|Ho].
    + by apply list_elem_of_fmap in Ho as (sub & -> & _).
    + repeat (apply elem_of_cons in Ho as [->|Ho]; [done|]). by apply elem_of_nil in Ho.
  - apply list_elem_of_singleton in Ho. by subst o.
Qed.

Lemma deletion_obs_unsubscribes (ss : option (list subscription)) (fs : list regfn)
    (id : string) :
  Call (unsubscribe id) ∈ mjoin (deletion_obs ss <$> fs) →
  ∃ sub, sub ∈ default [] ss ∧ subscriptionId sub = id ∧
         s_functionId sub ∈ f_functionId <$> fs.
Proof.
  destruct ss as [ss|]; cbn [from_option Datatypes.id].
  - apply delete_obs_unsubscribes.
  - intros Hin. exfalso. pose proof (deletion_obs_undefined fs) as Hadds.
    rewrite Forall_forall in Hadds. exact (Hadds _ Hin).
Qed.

(** Builds the proof that a run from the store [acme] on the demo stack
    reaches the reconciliation. *)
Ltac demo_reaches :=
  exists 1%positive, {[ "subdomain" := "acme"; "apikey" := "k" ]},
         [ {| Outputs := demo_outputs |} ];
  repeat split; vm_compute; reflexivity.

(** Once the configuration is valid and the stack carries both credentials,
    the hook returns normally, whatever the project declares and whatever
    the gateway lists or answers, with one exception: when the listing of
    functions is rejected with an empty reason, [functions] is left
    [undefined] and the hook throws the [TypeError] of line 201.  In every
    case the hook prints the banner, asks for the stack, lists the
    functions and then the subscriptions, and lists nothing a second
    time. *)
Theorem hook_outcome_once_credentials_found (awsProvider : host) (eg : gateway)
    (fns : functions_t) (s : state) (st : stack) :
  reaches_reconciliation awsProvider s st →
  (configureEventGateway awsProvider eg fns s).1 =
    (if bool_decide (gw_listFunctions eg = inl (Rejection ""))
     then Throw (TypeError "functions.forEach") else Return ()) ∧
  ∃ rest,
    trace (configureEventGateway awsProvider eg fns s).2 =
      trace s ++ banner awsProvider ++ [Call listFunctions; Call listSubscriptions] ++ rest ∧
    List.filter is_listing rest = [].
Proof.
  intros (l & section & stacks & Hl & Hs & Hd & Ha & Hdesc & Hlast & Hak & Hsk).
  destruct (reconciliation_run awsProvider eg fns s l section stacks st
              Hl Hs Hd Ha Hdesc Hlast Hak Hsk) as (t & final & Hrun & Htrace & Hsafe).
  rewrite Hrun. cbn [fst snd]. split.
  - unfold functions_after_listing.
    destruct (gw_listFunctions eg) as [[m|x|reason]|fs]; try done. simpl.
    destruct (decide (reason = "")) as [->|Hne]; [done|].
    rewrite bool_decide_eq_false_2 by done.
    rewrite bool_decide_eq_false_2; [done|]. by intros [= ->].
  - eexists. split; [exact Htrace|].
    rewrite List.filter_app, deletion_obs_no_listing.
    by destruct (reconciles_no_delete _ _ _ Hsafe) as [_ ->].
Qed.

Lemma hook_outcome_once_credentials_found_witness :
  (configureEventGateway (demo_provider demo_outputs) rejecting_registration
     user_created_and_schedule acme).1 = Return () ∧
  (configureEventGateway (demo_provider demo_outputs) unlistable http_GET acme).1
    = Return () ∧
  (configureEventGateway (demo_provider demo_outputs) mute http_GET acme).1
    = Throw (TypeError "functions.forEach").
Proof.
  destruct (hook_outcome_once_credentials_found (demo_provider demo_outputs)
              rejecting_registration user_created_and_schedule acme
              {| Outputs := demo_outputs |}) as [H1 _]; [demo_reaches|].
  destruct (hook_outcome_once_credentials_found (demo_provider demo_outputs)
              unlistable http_GET acme {| Outputs := demo_outputs |}) as [H2 _];
    [demo_reaches|].
  destruct (hook_outcome_once_credentials_found (demo_provider demo_outputs)
              mute http_GET acme {| Outputs := demo_outputs |}) as [H3 _];
    [demo_reaches|].
  split; [exact H1|]. split; [exact H2 | exact H3].
Defined.

(** The functions the hook deletes are exactly the orphans, each once: the
    listed functions whose id none of the qualifying declared functions
    derives.  A listed function that a qualifying declared function derives
    is never deleted.  When the listing of subscriptions was rejected with
    an empty reason, [subscriptions] is [undefined] and nothing is
    deleted. *)
Theorem deletes_exactly_the_orphans (awsProvider : host) (eg : gateway)
    (fns : functions_t) (s : state) (st : stack) :
  reaches_reconciliation awsProvider s st →
  ∃ t,
    trace (configureEventGateway awsProvider eg fns s).2 = trace s ++ t ∧
    List.filter is_delete t ≡ₚ
      (λ f, Call (deleteFunction (f_functionId f))) <$>
        deleted_functions awsProvider eg (parseOutputs st) (filterFunctionsWithEvents fns).
Proof.
  intros (l & section & stacks & Hl & Hs & Hd & Ha & Hdesc & Hlast & Hak & Hsk).
  destruct (reconciliation_run awsProvider eg fns s l section stacks st
              Hl Hs Hd Ha Hdesc Hlast Hak Hsk) as (t & final & Hrun & Htrace & Hsafe).
  rewrite Hrun. cbn [snd]. eexists. split; [exact Htrace|].
  rewrite !List.filter_app.
  destruct (reconciles_no_delete _ _ _ Hsafe) as [-> _]. simpl.
  unfold deleted_functions.
  destruct (subscriptions_after_listing eg) as [ss|].
  - change (deletion_obs (Some ss)) with (delete_obs ss). by rewrite delete_obs_deletes.
  - by destruct (adds_only_no_call _ (deletion_obs_undefined
                   (orphans awsProvider (parseOutputs st) (filterFunctionsWithEvents fns)
                      (listed_functions eg)))) as [-> _].
Qed.

Lemma deletes_exactly_the_orphans_witness :
  (∃ t,
     trace (configureEventGateway (demo_provider demo_outputs) with_orphan http_GET acme).2
       = trace acme ++ t ∧
     List.filter is_delete t ≡ₚ [Call (deleteFunction "old")]) ∧
  (∃ t,
     trace (configureEventGateway (demo_provider demo_outputs) half_mute http_GET acme).2
       = trace acme ++ t ∧
     List.filter is_delete t ≡ₚ []).
Proof.
  split.
  - apply (deletes_exactly_the_orphans (demo_provider demo_outputs) with_orphan
             http_GET acme {| Outputs := demo_outputs |}). demo_reaches.
  - apply (deletes_exactly_the_orphans (demo_provider demo_outputs) half_mute
             http_GET acme {| Outputs := demo_outputs |}). demo_reaches.
Defined.

(** Every [unsubscribe] the hook sends names a subscription the gateway
    listed, and one that belongs to a function the gateway listed. *)
Theorem unsubscribes_only_what_was_listed (awsProvider : host) (eg : gateway)
    (fns : functions_t) (s : state) (st : stack) (id : string) :
  reaches_reconciliation awsProvider s st →
  Call (unsubscribe id) ∈ trace (configureEventGateway awsProvider eg fns s).2 →
  Call (unsubscribe id) ∈ trace s ∨
  ∃ sub, sub ∈ listed_subscriptions eg ∧ subscriptionId sub = id ∧
         s_functionId sub ∈ f_functionId <$> listed_functions eg.
Proof.
  intros (l & section & stacks & Hl & Hs & Hd & Ha & Hdesc & Hlast & Hak & Hsk).
  destruct (reconciliation_run awsProvider eg fns s l section stacks st
              Hl Hs Hd Ha Hdesc Hlast Hak Hsk) as (t & final & Hrun & Htrace & Hsafe).
  rewrite Hrun. cbn [snd]. rewrite Htrace. rewrite !elem_of_app.
  intros [H|[H|[H|[H|H]]]].
  - by left.
  - unfold banner in H. repeat (apply elem_of_cons in H as [H|H]; [discriminate|]).
    by apply elem_of_nil in H.
  - repeat (apply elem_of_cons in H as [H|H]; [discriminate|]).
    by apply elem_of_nil in H.
  - right. rewrite Forall_forall in Hsafe.
    destruct (Hsafe _ H) as [Ho|(sub & [= ->] & Hsub & Hf)]; [done|].
    by exists sub.
  - right. apply deletion_obs_unsubscribes in H as (sub & Hsub & Hid & Hf).
    rewrite <- listed_subscriptions_after in Hsub.
    exists sub. split; [done|]. split; [done|].
    apply list_elem_of_fmap in Hf as (f & -> & Hf%list_elem_of_filter).
    apply list_elem_of_fmap. exists f. by destruct Hf.
Qed.

Lemma unsubscribes_only_what_was_listed_witness :
  ∃ sub, sub ∈ listed_subscriptions with_orphan ∧ subscriptionId sub = "sub-2" ∧
         s_functionId sub ∈ f_functionId <$> listed_functions with_orphan.
Proof.
  destruct (unsubscribes_only_what_was_listed (demo_provider demo_outputs) with_orphan
              http_GET acme {| Outputs := demo_outputs |} "sub-2") as [H|H].
  - demo_reaches.
  - vm_compute. do 5 apply list_elem_of_further. apply list_elem_of_here.
  - by apply elem_of_nil in H.
  - exact H.
Defined.

Lemma not_in_no_unsubscribe (t : list obs) :
  (∀ id, Call (unsubscribe id) ∉ t) → List.filter is_unsubscribe t = [].
Proof.
  intros H. apply filter_none, Forall_forall. intros o Ho.
  destruct o as [| |[| | | |id|]|]; try done. by destruct (H id).
Qed.

Lemma reconciles_unsubscribes (fs : list regfn) (ss : list subscription) (t : list obs)
    (id : string) :
  Forall (reconciles fs ss) t →
  Call (unsubscribe id) ∈ t →
  ∃ sub, sub ∈ ss ∧ subscriptionId sub = id ∧ s_functionId sub ∈ f_functionId <$> fs.
Proof.
  rewrite Forall_forall. intros Hsafe Hin.
  destruct (Hsafe _ Hin) as [Ho|(sub & [= ->] & Hsub & Hf)]; [done|]. by exists sub.
Qed.

(** A rejected listing leaves nothing to remove.  When the listing of
    functions fails the hook removes nothing: it sends no [unsubscribe] and
    no [deleteFunction].  When the listing of subscriptions fails it sends
    no [unsubscribe]. *)
Theorem failed_listing_removes_nothing (awsProvider : host) (eg : gateway)
    (fns : functions_t) (s : state) (st : stack) :
  reaches_reconciliation awsProvider s st →
  ((∃ err, gw_listFunctions eg = inl err) →
   List.filter removes (trace (configureEventGateway awsProvider eg fns s).2)
   = List.filter removes (trace s)) ∧
  ((∃ err, gw_listSubscriptions eg = inl err) →
   List.filter is_unsubscribe (trace (configureEventGateway awsProvider eg fns s).2)
   = List.filter is_unsubscribe (trace s)).
Proof.
  intros (l & section & stacks & Hl & Hs & Hd & Ha & Hdesc & Hlast & Hak & Hsk).
  destruct (reconciliation_run awsProvider eg fns s l section stacks st
              Hl Hs Hd Ha Hdesc Hlast Hak Hsk) as (t & final & Hrun & Htrace & Hsafe).
  rewrite Hrun. cbn [snd]. rewrite Htrace. split.
  - intros [err Herr]. unfold listed_functions in *. rewrite Herr in *.
    unfold orphans. rewrite filter_nil.
    rewrite !List.filter_app. simpl. rewrite !app_nil_r.
    rewrite (filter_none removes t); [by rewrite app_nil_r|].
    apply Forall_forall. intros o Ho. rewrite Forall_forall in Hsafe.
    destruct (Hsafe _ Ho) as [Hadd|(sub & -> & _ & Hf)].
    + by destruct o as [| |[]|].
    + by apply elem_of_nil in Hf.
  - intros [err Herr].
    assert (listed_subscriptions eg = []) as Hnone
      by (unfold listed_subscriptions; by rewrite Herr).
    rewrite Hnone in Hsafe.
    rewrite !List.filter_app. simpl.
    rewrite (not_in_no_unsubscribe t).
    + rewrite (not_in_no_unsubscribe (mjoin _)); [by rewrite !app_nil_r|].
      intros id Hin. apply deletion_obs_unsubscribes in Hin as (sub & Hsub & _).
      rewrite <- listed_subscriptions_after, Hnone in Hsub.
      by apply elem_of_nil in Hsub.
    + intros id Hin.
      destruct (reconciles_unsubscribes _ _ _ _ Hsafe Hin) as (sub & Hsub & _).
      by apply elem_of_nil in Hsub.
Qed.

Lemma failed_listing_removes_nothing_witness :
  List.filter removes
    (trace (configureEventGateway (demo_provider demo_outputs) unlistable http_GET acme).2)
  = [].
Proof.
  destruct (failed_listing_removes_nothing (demo_provider demo_outputs) unlistable
              http_GET acme {| Outputs := demo_outputs |}) as [H _].
  - demo_reaches.
  - rewrite H; [reflexivity|]. by exists (Rejection "timeout").
Defined.

(** ** A first deployment *)







(** ** The emit command *)

Lemma getClient_keeps_trace (s : state) : trace (getClient s).2 = trace s.
Proof.
  destruct (custom s ≫= custom_eventgateway) as [l|] eqn:Hl.
  - by rewrite (getClient_general s l Hl).
  - by rewrite (getClient_absent s Hl).
Qed.

Lemma getClient_returns (s : state) (eg : SDK) :
  (getClient s).1 = Return eg →
  ∃ l section,
    custom s ≫= custom_eventgateway = Some l ∧ heap s !! l = Some section ∧
    truthy (section !! "subdomain") = true ∧ truthy (section !! "apikey") = true ∧
    getClient s = (Return eg, after_getClient s l section).
Proof.
  intros H.
  destruct (custom s ≫= custom_eventgateway) as [l|] eqn:Hl.
  - destruct (heap s !! l) as [section|] eqn:Hs.
    + rewrite (getClient_present s l section Hl Hs) in H |- *. cbn [fst] in H.
      exists l, section.
      destruct (truthy (section !! "subdomain")) eqn:Hd; [|done].
      destruct (truthy (section !! "apikey")) eqn:Ha; [|done].
      cbn [negb] in H |- *. repeat split; try done.
      inversion H; subst. unfold after_getClient. do 3 f_equal.
      destruct (section !! "apikey") as [k|]; [|done].
      unfold js_or. by rewrite Ha.
    + rewrite (getClient_general s l Hl), Hs in H. done.
  - by rewrite (getClient_absent s Hl) in H.
Qed.

(** [emitEvent] hands the gateway at most one request, and only after every
    local check: when a request is sent, the stored section has a non-empty
    subdomain and apikey, the data option parsed, the request carries the
    event option and the parsed value, the client addresses the section's
    subdomain, the token slot holds the apikey, and the command returns
    normally whatever the gateway answers. *)
Theorem emitEvent_sends_after_checks {value : Type}
    (JSON_parse : option string → error + value)
    (emit_answer : SDK → emission value → option error)
    (options_event options_data : option string) (s : state) (request : emission value) :
  request ∈ (emitEvent JSON_parse emit_answer options_event options_data s).2 →
  ∃ l section data,
    custom s ≫= custom_eventgateway = Some l ∧ heap s !! l = Some section ∧
    truthy (section !! "subdomain") = true ∧ truthy (section !! "apikey") = true ∧
    JSON_parse options_data = inr data ∧
    request = {| em_event := options_event; em_data := data |} ∧
    (emitEvent JSON_parse emit_answer options_event options_data s).2 = [request] ∧
    (emitEvent JSON_parse emit_answer options_event options_data s).1.1 = Return () ∧
    EVENT_GATEWAY_TOKEN (emitEvent JSON_parse emit_answer options_event options_data s).1.2
      = section !! "apikey".
Proof.
  unfold emitEvent. intros Hin.
  destruct (getClient s) as [[eg|e] s1] eqn:Hc; [|by apply elem_of_nil in Hin].
  destruct (getClient_returns s eg) as (l & section & Hl & Hs & Hd & Ha & Hrun);
    [by rewrite Hc|].
  rewrite Hc in Hrun. injection Hrun as ->.
  destruct (JSON_parse options_data) as [e|data]; [by apply elem_of_nil in Hin|].
  apply list_elem_of_singleton in Hin as ->.
  exists l, section, data. repeat split; try done.
  - unfold detached, settle. cbn [snd fst].
    by destruct (emit_answer eg _).
  - unfold detached, settle. cbn [snd fst].
    by destruct (emit_answer eg _).
Qed.

Lemma emitEvent_sends_after_checks_witness :
  ∃ l section data,
    custom acme ≫= custom_eventgateway = Some l ∧ heap acme !! l = Some section ∧
    truthy (section !! "subdomain") = true ∧ truthy (section !! "apikey") = true ∧
    parse_demo (Some "{}") = inr data ∧
    {| em_event := Some "user.created"; em_data := "empty object" |}
      = {| em_event := Some "user.created"; em_data := data |} ∧
    (emitEvent parse_demo (λ _ _, Some (Rejection "unauthorized"))
       (Some "user.created") (Some "{}") acme).2
      = [{| em_event := Some "user.created"; em_data := "empty object" |}] ∧
    (emitEvent parse_demo (λ _ _, Some (Rejection "unauthorized"))
       (Some "user.created") (Some "{}") acme).1.1 = Return () ∧
    EVENT_GATEWAY_TOKEN
      (emitEvent parse_demo (λ _ _, Some (Rejection "unauthorized"))
         (Some "user.created") (Some "{}") acme).1.2
      = section !! "apikey".
Proof.
  apply (emitEvent_sends_after_checks parse_demo (λ _ _, Some (Rejection "unauthorized"))
           (Some "user.created") (Some "{}") acme
           {| em_event := Some "user.created"; em_data := "empty object" |}).
  vm_compute. apply list_elem_of_here.
Defined.

(** The gateway's answer to [eg.emit] is invisible to the caller of
    [emitEvent]: with any two gateways the command has the same outcome,
    sends the same requests and leaves the same configuration and token.
    In particular a rejected emit does not fail the command; and with a
    gateway that rejects, no line is printed. *)
Theorem emitEvent_hides_the_answer {value : Type}
    (JSON_parse : option string → error + value)
    (answer answer' : SDK → emission value → option error)
    (rejection : SDK → emission value → error)
    (options_event options_data : option string) (s : state) :
  let r := emitEvent JSON_parse answer options_event options_data s in
  let r' := emitEvent JSON_parse answer' options_event options_data s in
  let rejected :=
    emitEvent JSON_parse (λ eg request, Some (rejection eg request))
      options_event options_data s in
  r.1.1 = r'.1.1 ∧ r.2 = r'.2 ∧
  heap r.1.2 = heap r'.1.2 ∧ EVENT_GATEWAY_TOKEN r.1.2 = EVENT_GATEWAY_TOKEN r'.1.2 ∧
  List.filter is_log (trace rejected.1.2) = List.filter is_log (trace s).
Proof.
  cbv zeta. unfold emitEvent.
  pose proof (getClient_keeps_trace s) as Ht.
  destruct (getClient s) as [[eg|e] s1]; cbn [snd] in Ht; cbn [fst snd];
    [|by rewrite Ht].
  destruct (JSON_parse options_data) as [e|data]; cbn [fst snd]; [by rewrite Ht|].
  unfold detached, settle.
  destruct (answer eg _), (answer' eg _); cbn [fst snd mbind M_bind throw];
    repeat split; try done.
  all: simpl; rewrite List.filter_app, Ht; simpl; by rewrite app_nil_r.
Qed.
